(** * A model of the SonarQube review pipeline

    The repository holds two variants of one pipeline,
    [sonar-reviewer.js] (prints a report on the console) and [reviewer.js]
    (posts review comments on a pull request).  Both fetch the open issues of
    a project, ask a chat model to rewrite each one, and publish the result.

    The embedding is shallow: JavaScript functions become Rocq functions in
    a state-and-exception monad over an explicit world.  The world holds the
    state of the outside services, which answer every call the program
    makes, and the trace of the effects the program has caused so far.

    The model starts where the clients are set up: the environment is read
    into a [Config] whose variables are all present, and [main] is the last
    statement of each file. *)

From Stdlib Require Import String Ascii List ZArith Bool Lia DecimalString.
From Equations Require Import Equations.
From Equations.Prop Require Import Logic.
Import ListNotations.

Local Open Scope string_scope.
Local Open Scope Z_scope.

(** ** The JavaScript operations the program relies on *)

Module Js.

(** Strings are byte sequences (the UTF-8 encoding of the source text).
    [nl] is the line feed, written as an escape in the source. *)
Definition nl : string := String (ascii_of_nat 10) EmptyString.

(** The values a JSON property can hold, as far as the program looks at
    them.  Numbers are integers: the only number read is a line number. *)
Inductive value : Type :=
| Undefined
| Null
| Boolean (b : bool)
| Num (n : Z)
| Str (s : string).

(** [ToBoolean]. *)
Definition truthy (v : value) : bool :=
  match v with
  | Undefined | Null => false
  | Boolean b => b
  | Num n => negb (n =? 0)
  | Str s => negb (String.eqb s EmptyString)
  end.

(** [a || b] *)
Definition or_else (a b : value) : value := if truthy a then a else b.

(** Decimal rendering of an integer, as [String(n)] gives it. *)
Definition of_Z (n : Z) : string := NilZero.string_of_int (Z.to_int n).

(** [ToString], which a template literal applies to each hole. *)
Definition to_string (v : value) : string :=
  match v with
  | Undefined => "undefined"
  | Null => "null"
  | Boolean true => "true"
  | Boolean false => "false"
  | Num n => of_Z n
  | Str s => s
  end.

(** [hay.startsWith(needle)] *)
Fixpoint starts_with (hay needle : string) : bool :=
  match needle, hay with
  | EmptyString, _ => true
  | String _ _, EmptyString => false
  | String a needle', String b hay' =>
      Ascii.eqb a b && starts_with hay' needle'
  end.

(** [hay.includes(needle)] *)
Fixpoint includes (hay needle : string) : bool :=
  starts_with hay needle
  || match hay with
     | EmptyString => false
     | String _ hay' => includes hay' needle
     end.

(** [s.split(sep)] for a separator of one code unit, the only kind the
    program passes.  The result is never empty. *)
Fixpoint split (sep : ascii) (s : string) : list string :=
  match s with
  | EmptyString => [EmptyString]
  | String c rest =>
      if Ascii.eqb c sep then EmptyString :: split sep rest
      else match split sep rest with
           | piece :: pieces => String c piece :: pieces
           | [] => [String c EmptyString]
           end
  end.

(** [arr[i]] on an array of strings: [None] stands for [undefined]. *)
Definition at_index (arr : list string) (i : nat) : option string :=
  nth_error arr i.

(** [x || d] where [x] is a string or [undefined] and [d] a string. *)
Definition str_or (x : option string) (d : string) : string :=
  match x with
  | Some (String c s) => String c s
  | Some EmptyString | None => d
  end.

(** The string of the bytes with the given codes. *)
Definition bytes (codes : list Z) : string :=
  string_of_list_ascii (map (fun code => ascii_of_nat (Z.to_nat code)) codes).

(** The characters [trim] removes, each as its UTF-8 bytes: the white
    space and the line terminators of the language.  They are tab, line
    feed, vertical tab, form feed, carriage return and space; the no-break
    space U+00A0; U+1680; U+2000 to U+200A; the separators U+2028 and
    U+2029; U+202F; U+205F; U+3000; and the byte order mark U+FEFF. *)
Definition white_space : list string :=
  [bytes [9]; bytes [10]; bytes [11]; bytes [12]; bytes [13]; bytes [32];
   bytes [194; 160];
   bytes [225; 154; 128];
   bytes [226; 128; 128]; bytes [226; 128; 129]; bytes [226; 128; 130];
   bytes [226; 128; 131]; bytes [226; 128; 132]; bytes [226; 128; 133];
   bytes [226; 128; 134]; bytes [226; 128; 135]; bytes [226; 128; 136];
   bytes [226; 128; 137]; bytes [226; 128; 138];
   bytes [226; 128; 168]; bytes [226; 128; 169];
   bytes [226; 128; 175];
   bytes [226; 129; 159];
   bytes [227; 128; 128];
   bytes [239; 187; 191]].

(** What follows [w] in [s], when [s] starts with [w]. *)
Fixpoint strip_prefix (w s : string) : option string :=
  match w, s with
  | EmptyString, _ => Some s
  | String _ _, EmptyString => None
  | String a w', String b s' => if Ascii.eqb a b then strip_prefix w' s' else None
  end.

(** What follows the first character of [s], when that is white space. *)
Definition strip_space (s : string) : option string :=
  fold_right (fun w found =>
                match strip_prefix w s with
                | Some rest => Some rest
                | None => found
                end)
             None white_space.

(** [s.trimStart()]: white space is removed from the front while there is
    some, which takes at most as many turns as [s] has bytes. *)
Fixpoint trim_start_from (turns : nat) (s : string) : string :=
  match turns with
  | O => s
  | S fewer =>
      match strip_space s with
      | Some rest => trim_start_from fewer rest
      | None => s
      end
  end.

Definition trim_start (s : string) : string :=
  trim_start_from (String.length s) s.

(** [s] holds white space only. *)
Definition is_blank (s : string) : bool :=
  String.eqb (trim_start s) EmptyString.

(** [s.trimEnd()]: [s] is cut where what is left holds white space only. *)
Fixpoint trim_end (s : string) : string :=
  match s with
  | EmptyString => EmptyString
  | String c rest => if is_blank s then EmptyString else String c (trim_end rest)
  end.

(** [s.trim()] *)
Definition trim (s : string) : string := trim_end (trim_start s).

(** [s.repeat(n)] *)
Fixpoint repeat (s : string) (n : nat) : string :=
  match n with
  | O => EmptyString
  | S k => s ++ repeat s k
  end.

(** [Buffer.from(s).toString("base64")]: three bytes give four digits,
    and a shorter last group is padded with [=]. *)
Definition base64_digit (n : N) : ascii :=
  match String.get (N.to_nat n)
          "ABCDEFGHIJKLMNOPQRSTUVWXYZabcdefghijklmnopqrstuvwxyz0123456789+/" with
  | Some c => c
  | None => "="%char
  end.

Fixpoint base64_bytes (bytes : list N) : string :=
  match bytes with
  | [] => EmptyString
  | [a] =>
      String (base64_digit (a / 4))
        (String (base64_digit ((a mod 4) * 16)) "==")
  | [a; b] =>
      String (base64_digit (a / 4))
        (String (base64_digit ((a mod 4) * 16 + b / 16))
           (String (base64_digit ((b mod 16) * 4)) "="))
  | a :: b :: c :: rest =>
      String (base64_digit (a / 4))
        (String (base64_digit ((a mod 4) * 16 + b / 16))
           (String (base64_digit ((b mod 16) * 4 + c / 64))
              (String (base64_digit (c mod 64)) (base64_bytes rest))))
  end%N.

Definition base64 (s : string) : string :=
  base64_bytes (map N_of_ascii (list_ascii_of_string s)).

(** What a [throw] can carry: [undefined], or an object whose [message]
    property is a string or is missing. *)
Inductive thrown : Type :=
| ThrownUndefined
| ThrownError (message : option string).

(** [new Error(msg)] *)
Definition Error (msg : string) : thrown := ThrownError (Some msg).

(** [String(err?.message || "")] *)
Definition message_text (err : thrown) : string :=
  match err with
  | ThrownError (Some msg) => msg
  | ThrownError None | ThrownUndefined => EmptyString
  end.

End Js.

(** ** Data exchanged with the outside services *)

(** One issue of the quality server's search result.  [line] is kept as a
    raw value: the program tests its truthiness. *)
Record Issue : Type := {
  rule : string;
  severity : string;
  component : string;
  line : Js.value;
  message : string
}.

(** The result of a computation: a value, or a thrown exception. *)
Inductive Outcome (A : Type) : Type :=
| Ok (a : A)
| Throw (err : Js.thrown).
Arguments Ok {A} a.
Arguments Throw {A} err.

(** The [issues] property of a parsed body: missing, falsy ([null],
    [false], [0] or the empty string), or the array of issues.  A truthy
    value there is an array of issues, as the interface of the server has
    it. *)
Inductive IssuesField : Type :=
| IssuesAbsent
| IssuesFalsy
| IssuesArray (found : list Issue).

(** What [res.json()] resolves to: JSON [null], or any other JSON value
    with its [issues] property, which is absent from a number, a string, a
    boolean and an array. *)
Inductive SearchBody : Type :=
| BodyNull
| BodyValue (issues : IssuesField).

(** [data.issues]: reading a property of [null] throws a [TypeError]. *)
Definition read_issues (data : SearchBody) : Outcome IssuesField :=
  match data with
  | BodyNull => Throw (Js.Error "Cannot read properties of null (reading 'issues')")
  | BodyValue issues => Ok issues
  end.

(** [issues || []]: an array is truthy, even when empty. *)
Definition issues_or_empty (issues : IssuesField) : list Issue :=
  match issues with
  | IssuesArray found => found
  | IssuesAbsent | IssuesFalsy => []
  end.

(** What [fetch] resolves to.  [json] is the outcome of [res.json()], which
    rejects when the body is not JSON. *)
Record HttpResponse : Type := {
  ok : bool;
  statusText : string;
  json : Outcome SearchBody
}.

Record ChatMessage : Type := { role : string; content : string }.

Record ChatRequest : Type := {
  model : string;
  messages : list ChatMessage;
  max_tokens : Z
}.

(** [choices[i].message.content] is a string or [null]. *)
Record Choice : Type := { message_content : option string }.
Record ChatResponse : Type := { choices : list Choice }.

(** [response.choices[0].message.content.trim()], the expression both
    variants apply to a chat response: reading a property of [undefined] or
    of [null] throws a [TypeError]. *)
Definition first_choice_text (response : ChatResponse) : Outcome string :=
  match choices response with
  | [] =>
      Throw (Js.Error "Cannot read properties of undefined (reading 'message')")
  | choice :: _ =>
      match message_content choice with
      | None => Throw (Js.Error "Cannot read properties of null (reading 'trim')")
      | Some text => Ok (Js.trim text)
      end
  end.

(** The argument of [octokit.pulls.createReviewComment].  [path] is
    [undefined] when [None]. *)
Record CommentArgs : Type := {
  owner : option string;
  repo : option string;
  pull_number : string;
  body : string;
  commit_id : string;
  path : option string;
  comment_line : Js.value
}.

(** The environment variables the program reads. *)
Record Config : Type := {
  SONARQUBE_URL : string;
  SONARQUBE_PROJECT : string;
  SONARQUBE_TOKEN : string;
  AZURE_OPENAI_DEPLOYMENT : string;
  GITHUB_REPOSITORY : string;
  PR_NUMBER : string;
  GITHUB_SHA : string
}.

(** The address both variants query, and the [Authorization] header they
    send: the token as user name of a Basic credential with no password. *)
Definition search_url (cfg : Config) : string :=
  SONARQUBE_URL cfg ++ "/api/issues/search?componentKeys="
  ++ SONARQUBE_PROJECT cfg ++ "&resolved=false".

Definition authorization (cfg : Config) : string :=
  "Basic " ++ Js.base64 (SONARQUBE_TOKEN cfg ++ ":").

(** ** Effects *)

(** Everything the program does to the outside, in the order it happens. *)
Inductive Event : Type :=
| EFetch (url authorization : string)
| EChat (req : ChatRequest)
| EComment (args : CommentArgs)
| ESleep (ms : Z)
| ELog (text : string)
| EError (label : string) (err : Js.thrown).

(** The outside services.  Each call reads and advances the state [Env] of
    the outside world and resolves or rejects. *)
Class Services (Env : Type) : Type := {
  fetch : string -> string -> Env -> Outcome HttpResponse * Env;
  chat_completions_create : ChatRequest -> Env -> Outcome ChatResponse * Env;
  pulls_createReviewComment : CommentArgs -> Env -> Outcome unit * Env
}.

Module Effects.
Section Monad.

Context {Env : Type}.

Record World : Type := { env : Env; trace : list Event }.

(** An asynchronous function, run to completion: [await] is sequencing. *)
Definition M (A : Type) : Type := World -> Outcome A * World.

Definition ret {A} (a : A) : M A := fun w => (Ok a, w).

Definition throw {A} (err : Js.thrown) : M A := fun w => (Throw err, w).

Definition bind {A B} (c : M A) (k : A -> M B) : M B :=
  fun w =>
    match c w with
    | (Ok a, w') => k a w'
    | (Throw err, w') => (Throw err, w')
    end.

(** [try { c } catch (err) { handler }] *)
Definition try_catch {A} (c : M A) (handler : Js.thrown -> M A) : M A :=
  fun w =>
    match c w with
    | (Ok a, w') => (Ok a, w')
    | (Throw err, w') => handler err w'
    end.

(** An effect that cannot fail. *)
Definition emit (ev : Event) : M unit :=
  fun w => (Ok tt, {| env := env w; trace := trace w ++ [ev] |}).

(** A call to an outside service: it is recorded, then answered. *)
Definition call {A} (ev : Event) (service : Env -> Outcome A * Env) : M A :=
  fun w =>
    let (answer, env') := service (env w) in
    (answer, {| env := env'; trace := trace w ++ [ev] |}).

(** Awaiting a promise that is already settled. *)
Definition settle {A} (o : Outcome A) : M A := fun w => (o, w).

(** [console.log(text)] *)
Definition console_log (text : string) : M unit := emit (ELog text).

(** [console.error(label, err)] *)
Definition console_error (label : string) (err : Js.thrown) : M unit :=
  emit (EError label err).

(** [await new Promise(r => setTimeout(r, ms))] *)
Definition sleep (ms : Z) : M unit := emit (ESleep ms).

(** [for (const x of xs) { body }]: an exception leaves the loop. *)
Fixpoint for_of {A} (xs : list A) (body : A -> M unit) : M unit :=
  match xs with
  | [] => ret tt
  | x :: rest => bind (body x) (fun _ => for_of rest body)
  end.

End Monad.
Arguments World Env : clear implicits.
Arguments M Env A : clear implicits.
End Effects.

Import Effects.

Declare Scope js_scope.
Delimit Scope js_scope with js.
Notation "x <- c ;; k" := (bind c (fun x => k))
  (at level 61, c at next level, right associativity) : js_scope.
Notation "c ;; k" := (bind c (fun _ => k))
  (at level 61, right associativity) : js_scope.

(** ** [sonar-reviewer.js]: the console report *)

Module SonarReviewer.

(** The [options] argument of [withRetry]. *)
Record RetryOptions : Type := { retries : Z; baseDelayMs : Z }.

(** The default value of [options]. *)
Definition default_options : RetryOptions :=
  {| retries := 2; baseDelayMs := 500 |}.

(** The test [withRetry] applies to a caught exception. *)
Definition isConn (err : Js.thrown) : bool :=
  let msg := Js.message_text err in
  Js.includes msg "APIConnectionError"
  || Js.includes msg "fetch failed"
  || Js.includes msg "ENOTFOUND"
  || Js.includes msg "ETIMEDOUT".

(** The prompt sent for an issue.  The template opens with a line feed
    and closes with a line feed and two spaces. *)
Definition prompt (issue : Issue) : string :=
  Js.nl ++
  "You are a code reviewer. Summarize this SonarQube issue into a clear GitHub PR comment." ++ Js.nl ++
  "Explain in simple language, give reasoning, and suggest a fix." ++ Js.nl ++
  Js.nl ++
  "Issue:" ++ Js.nl ++
  "Rule: " ++ rule issue ++ Js.nl ++
  "Severity: " ++ severity issue ++ Js.nl ++
  "File: " ++ component issue ++ Js.nl ++
  "Line: " ++ Js.to_string (Js.or_else (line issue) (Js.Str "N/A")) ++ Js.nl ++
  "Message: " ++ message issue ++ Js.nl ++
  "  ".

(** The file shown for an issue:
    [issue.component.split(":")[1] || issue.component]. *)
Definition file_of (issue : Issue) : string :=
  Js.str_or (Js.at_index (Js.split ":" (component issue)) 1) (component issue).

Section Program.

Context {Env : Type} {services : Services Env} (cfg : Config).
Local Open Scope js_scope.

Definition fetchSonarIssues : M Env (list Issue) :=
  res <- call (EFetch (search_url cfg) (authorization cfg))
              (fetch (search_url cfg) (authorization cfg)) ;;
  if negb (ok res)
  then throw (Js.Error ("SonarQube API error: " ++ statusText res))
  else
    data <- settle (json res) ;;
    issues <- settle (read_issues data) ;;
    ret (issues_or_empty issues).

(** The [while] loop of [withRetry], from the state [attempt], [lastErr].
    The loop runs while [attempt <= retries] and [attempt] grows at every
    turn that does not leave it, so [retries + 1 - attempt] decreases.
    A [break] is followed by [throw lastErr], where [lastErr] is the
    exception just caught. *)
Equations? withRetry_loop {A : Type} (fn : M Env A) (options : RetryOptions)
  (attempt : Z) (lastErr : Js.thrown) (w : World Env) : Outcome A * World Env
  by wf (Z.to_nat (retries options + 1 - attempt)) lt :=
  withRetry_loop fn options attempt lastErr w with inspect (attempt <=? retries options) := {
    | exist _ false _ => throw lastErr w
    | exist _ true in_loop with fn w := {
        | (Ok result, w1) => (Ok result, w1)
        | (Throw err, w1) with negb (isConn err) || (attempt =? retries options) := {
            | true => throw err w1
            | false =>
                let delay := baseDelayMs options * 2 ^ attempt in
                withRetry_loop fn options (attempt + 1) err (snd (sleep delay w1))
          }
      }
  }.
Proof. apply Z.leb_le in in_loop. lia. Qed.

Definition withRetry {A : Type} (fn : M Env A) (options : RetryOptions) : M Env A :=
  withRetry_loop fn options 0 Js.ThrownUndefined.

Definition chat_request (issue : Issue) : ChatRequest :=
  {| model := AZURE_OPENAI_DEPLOYMENT cfg;
     messages := [{| role := "user"; content := prompt issue |}];
     max_tokens := 200 |}.

Definition enhanceWithGPT (issue : Issue) : M Env string :=
  try_catch
    (response <- withRetry
                   (call (EChat (chat_request issue))
                         (chat_completions_create (chat_request issue)))
                   default_options ;;
     settle (first_choice_text response))
    (fun err => console_error "GPT Error:" err ;; ret (message issue)).

(** The lines printed for an issue before it is enhanced. *)
Definition print_issue (issue : Issue) : M Env unit :=
  console_log (Js.repeat "=" 80) ;;
  console_log ("📁 File: " ++ file_of issue) ;;
  console_log ("📍 Line: " ++ Js.to_string (Js.or_else (line issue) (Js.Str "N/A"))) ;;
  console_log ("⚠️  Severity: " ++ severity issue) ;;
  console_log ("🔧 Rule: " ++ rule issue) ;;
  console_log ("💬 Original Message: " ++ message issue).

(** The lines printed for an issue once it is enhanced. *)
Definition print_review (gptComment : string) : M Env unit :=
  console_log (Js.nl ++ "🤖 GPT Enhanced Review:") ;;
  console_log gptComment ;;
  console_log Js.nl.

(** The body of the [for] loop of [run]. *)
Definition run_body (issue : Issue) : M Env unit :=
  print_issue issue ;;
  gptComment <- enhanceWithGPT issue ;;
  print_review gptComment.

Definition run : M Env unit :=
  console_log "🔍 Fetching SonarQube issues..." ;;
  issues <- fetchSonarIssues ;;
  console_log ("📊 Found " ++ Js.of_Z (Z.of_nat (length issues)) ++ " issues in SonarQube") ;;
  if (length issues =? 0)%nat
  then console_log "✅ No issues found! Code looks clean."
  else
    console_log (Js.nl ++ "🤖 Enhancing issues with GPT..." ++ Js.nl) ;;
    for_of issues run_body ;;
    console_log (Js.repeat "=" 80) ;;
    console_log ("🎉 Review complete! Processed "
                 ++ Js.of_Z (Z.of_nat (length issues)) ++ " issues.").

(** The last statement of the file: [run().catch(...)], with the exit
    status of the process as result. *)
Definition main : M Env Z :=
  try_catch (run ;; ret 0)
            (fun err => console_error "❌ Error:" err ;; ret 1).

End Program.
End SonarReviewer.

(** ** [reviewer.js]: review comments on a pull request *)

Module Reviewer.

Definition prompt (issue : Issue) : string :=
  Js.nl ++
  "You are a code reviewer. Summarize this SonarQube issue into a clear GitHub PR comment." ++ Js.nl ++
  "Explain in simple language, give reasoning, and suggest a fix." ++ Js.nl ++
  Js.nl ++
  "Issue:" ++ Js.nl ++
  "Rule: " ++ rule issue ++ Js.nl ++
  "Severity: " ++ severity issue ++ Js.nl ++
  "File: " ++ component issue ++ Js.nl ++
  "Line: " ++ Js.to_string (Js.or_else (line issue) (Js.Str "N/A")) ++ Js.nl ++
  "Message: " ++ message issue ++ Js.nl ++
  "  ".

(** The path a comment is posted on: [issue.component.split(":")[1]],
    which is [undefined] when the component has no colon. *)
Definition path_of (issue : Issue) : option string :=
  Js.at_index (Js.split ":" (component issue)) 1.

Section Program.

Context {Env : Type} {services : Services Env} (cfg : Config).
Local Open Scope js_scope.

Definition fetchSonarIssues : M Env (list Issue) :=
  res <- call (EFetch (search_url cfg) (authorization cfg))
              (fetch (search_url cfg) (authorization cfg)) ;;
  if negb (ok res)
  then throw (Js.Error ("SonarQube API error: " ++ statusText res))
  else
    data <- settle (json res) ;;
    issues <- settle (read_issues data) ;;
    ret (issues_or_empty issues).

Definition chat_request (issue : Issue) : ChatRequest :=
  {| model := "gpt-4o-mini";
     messages := [{| role := "user"; content := prompt issue |}];
     max_tokens := 200 |}.

Definition enhanceWithGPT (issue : Issue) : M Env string :=
  try_catch
    (response <- call (EChat (chat_request issue))
                      (chat_completions_create (chat_request issue)) ;;
     settle (first_choice_text response))
    (fun err => console_error "GPT Error:" err ;; ret (message issue)).

(** [const [owner, repo] = process.env.GITHUB_REPOSITORY.split("/")] *)
Definition comment_args (body : string) (path : option string) (line : Js.value)
  : CommentArgs :=
  let parts := Js.split "/" (GITHUB_REPOSITORY cfg) in
  {| owner := Js.at_index parts 0;
     repo := Js.at_index parts 1;
     pull_number := PR_NUMBER cfg;
     body := body;
     commit_id := GITHUB_SHA cfg;
     path := path;
     comment_line := Js.or_else line (Js.Num 1) |}.

Definition postComment (body : string) (path : option string) (line : Js.value)
  : M Env unit :=
  try_catch
    (call (EComment (comment_args body path line))
          (pulls_createReviewComment (comment_args body path line)))
    (fun err => console_error "GitHub Comment Error:" err).

(** The body of the [for] loop of [run]. *)
Definition run_body (issue : Issue) : M Env unit :=
  gptComment <- enhanceWithGPT issue ;;
  console_log ("💬" ++ " " ++ gptComment) ;;
  postComment gptComment (path_of issue) (line issue).

Definition run : M Env unit :=
  issues <- fetchSonarIssues ;;
  for_of issues run_body.

Definition main : M Env Z :=
  try_catch (run ;; ret 0)
            (fun err => console_error "❌ Error:" err ;; ret 1).

End Program.
End Reviewer.

(** ** A scripted outside world

    The services answer from a script: [fetch] always gives [http], and the
    chat and comment services give their answers in turn.  It serves to run
    the program on concrete inputs. *)

Module Scripted.

Record Script : Type := {
  http : Outcome HttpResponse;
  chats : list (Outcome ChatResponse);
  comments : list (Outcome unit)
}.

Definition exhausted : Js.thrown := Js.Error "no answer left in the script".

Definition answer_chat (s : Script) : Outcome ChatResponse * Script :=
  match chats s with
  | [] => (Throw exhausted, s)
  | o :: rest => (o, {| http := http s; chats := rest; comments := comments s |})
  end.

Definition answer_comment (s : Script) : Outcome unit * Script :=
  match comments s with
  | [] => (Throw exhausted, s)
  | o :: rest => (o, {| http := http s; chats := chats s; comments := rest |})
  end.

#[global] Instance services : Services Script := {
  fetch _ _ s := (http s, s);
  chat_completions_create _ s := answer_chat s;
  pulls_createReviewComment _ s := answer_comment s
}.

Definition start (s : Script) : World Script := {| env := s; trace := [] |}.

Definition cfg : Config :=
  {| SONARQUBE_URL := "http://localhost:9000";
     SONARQUBE_PROJECT := "myproj";
     SONARQUBE_TOKEN := "abc";
     AZURE_OPENAI_DEPLOYMENT := "gpt-4o";
     GITHUB_REPOSITORY := "octo/demo";
     PR_NUMBER := "7";
     GITHUB_SHA := "c0ffee" |}.

Definition issue_on (comp : string) (ln : Js.value) : Issue :=
  {| rule := "js:S1481"; severity := "MINOR"; component := comp;
     line := ln; message := "Remove this unused variable." |}.

Definition reply (text : string) : Outcome ChatResponse :=
  Ok {| choices := [{| message_content := Some text |}] |}.

Definition found (l : list Issue) : Outcome HttpResponse :=
  Ok {| ok := true; statusText := "OK"; json := Ok (BodyValue (IssuesArray l)) |}.

(** A server that answers with a success status and a body that is not
    JSON. *)
Definition unparsable : Script :=
  {| http := Ok {| ok := true; statusText := "OK";
                   json := Throw (Js.Error "Unexpected token < in JSON at position 0") |};
     chats := [];
     comments := [] |}.

(** A server that answers with a success status and the body [null]. *)
Definition null_body : Script :=
  {| http := Ok {| ok := true; statusText := "OK"; json := Ok BodyNull |};
     chats := [];
     comments := [] |}.

(** A server that refuses the token. *)
Definition refused : Script :=
  {| http := Ok {| ok := false; statusText := "Unauthorized";
                   json := Ok (BodyValue IssuesAbsent) |};
     chats := [];
     comments := [] |}.

(** A chat service that cannot be reached, and one that refuses the key. *)
Definition unreachable : Script :=
  {| http := found [];
     chats := [Throw (Js.Error "fetch failed");
               Throw (Js.Error "fetch failed");
               Throw (Js.Error "connect ETIMEDOUT 10.0.0.1:443")];
     comments := [] |}.

Definition unauthorized : Script :=
  {| http := found [];
     chats := [Throw (Js.Error "401 Unauthorized")];
     comments := [] |}.

Definition sample : Issue := issue_on "myproj:src/a/b.ts" (Js.Num 12).

(** A chat service that answers at once, with white space around its text. *)
Definition padded : string := "  Drop the unused variable." ++ Js.nl.

Definition helpful : Script :=
  {| http := found [sample]; chats := [reply padded]; comments := [Ok tt] |}.

End Scripted.

(** ** Vocabulary of the properties *)

Module Observe.

(** No byte of [s] is [c]. *)
Fixpoint free_of (c : ascii) (s : string) : Prop :=
  match s with
  | EmptyString => True
  | String a rest => a <> c /\ free_of c rest
  end.

(** [s] is made of white space characters. *)
Inductive blank : string -> Prop :=
| blank_nothing : blank EmptyString
| blank_more (w s : string) : In w Js.white_space -> blank s -> blank (w ++ s).

(** [s] starts, or ends, with a white space character. *)
Definition starts_blank (s : string) : Prop :=
  exists w rest, In w Js.white_space /\ s = w ++ rest.

Definition ends_blank (s : string) : Prop :=
  exists front w, In w Js.white_space /\ s = front ++ w.

(** [n] further attempts at a call [ev] from [attempt] on: each is a
    delay of [base * 2 ^ attempt] followed by the call. *)
Fixpoint further_attempts (ev : Event) (base attempt : Z) (n : nat) : list Event :=
  match n with
  | O => []
  | S k => ESleep (base * 2 ^ attempt) :: ev :: further_attempts ev base (attempt + 1) k
  end.

(** The world once further events have happened. *)
Definition extend {Env : Type} (w : World Env) (events : list Event) : World Env :=
  {| env := env w; trace := trace w ++ events |}.

(** What a call to [postComment] leaves after the request: nothing, or
    the log of its failure. *)
Definition comment_failure (events : list Event) : Prop :=
  events = [] \/ exists err, events = [EError "GitHub Comment Error:" err].

(** The chat call of each variant: wrapped in [withRetry] for the console
    report, bare for the review comments. *)
Definition console_call {Env : Type} {services : Services Env}
  (cfg : Config) (issue : Issue) : M Env ChatResponse :=
  SonarReviewer.withRetry
    (call (EChat (SonarReviewer.chat_request cfg issue))
          (chat_completions_create (SonarReviewer.chat_request cfg issue)))
    SonarReviewer.default_options.

Definition review_call {Env : Type} {services : Services Env}
  (issue : Issue) : M Env ChatResponse :=
  call (EChat (Reviewer.chat_request issue))
       (chat_completions_create (Reviewer.chat_request issue)).

(** What [try { ... } catch] makes of the outcome of the chat call. *)
Definition settled {Env : Type} (issue : Issue)
  (answer : Outcome ChatResponse * World Env) : Outcome string * World Env :=
  match answer with
  | (Ok response, w1) =>
      match first_choice_text response with
      | Ok text => (Ok text, w1)
      | Throw err => (Ok (message issue), extend w1 [EError "GPT Error:" err])
      end
  | (Throw err, w1) => (Ok (message issue), extend w1 [EError "GPT Error:" err])
  end.

(** The lines of the console report that describe an issue, and the
    lines that give its review. *)
Definition issue_lines (issue : Issue) : list Event :=
  [ELog (Js.repeat "=" 80);
   ELog ("📁 File: " ++ SonarReviewer.file_of issue);
   ELog ("📍 Line: " ++ Js.to_string (Js.or_else (line issue) (Js.Str "N/A")));
   ELog ("⚠️  Severity: " ++ severity issue);
   ELog ("🔧 Rule: " ++ rule issue);
   ELog ("💬 Original Message: " ++ message issue)].

Definition review_lines (gptComment : string) : list Event :=
  [ELog (Js.nl ++ "🤖 GPT Enhanced Review:"); ELog gptComment; ELog Js.nl].

(** The prompt of an issue with a given text after [Line: ]. *)
Definition prompt_showing (issue : Issue) (shown : string) : string :=
  Js.nl ++
  "You are a code reviewer. Summarize this SonarQube issue into a clear GitHub PR comment." ++ Js.nl ++
  "Explain in simple language, give reasoning, and suggest a fix." ++ Js.nl ++
  Js.nl ++
  "Issue:" ++ Js.nl ++
  "Rule: " ++ rule issue ++ Js.nl ++
  "Severity: " ++ severity issue ++ Js.nl ++
  "File: " ++ component issue ++ Js.nl ++
  "Line: " ++ shown ++ Js.nl ++
  "Message: " ++ message issue ++ Js.nl ++
  "  ".

(** The same issue with no [line] field. *)
Definition without_line (issue : Issue) : Issue :=
  {| rule := rule issue; severity := severity issue; component := component issue;
     line := Js.Undefined; message := message issue |}.

(** The comments requested among some events. *)
Definition comments_in (events : list Event) : list CommentArgs :=
  flat_map (fun ev => match ev with EComment args => [args] | _ => [] end) events.

(** The chat requests made among some events. *)
Definition chats_in (events : list Event) : list ChatRequest :=
  flat_map (fun ev => match ev with EChat req => [req] | _ => [] end) events.

(** The path as the specification words it: what follows the first colon
    of the component, or the whole component when it has no colon. *)
Fixpoint after_first_colon (s : string) : option string :=
  match s with
  | EmptyString => None
  | String c rest => if Ascii.eqb c ":" then Some rest else after_first_colon rest
  end.

Definition specified_path (component : string) : string :=
  match after_first_colon component with
  | Some file => file
  | None => component
  end.

(** The events of the enrichment of an issue: its chat request, the delays
    between attempts, the log of a failure. *)
Definition enriching (request : Issue -> ChatRequest) (issue : Issue) (ev : Event)
  : Prop :=
  match ev with
  | EChat req => req = request issue
  | ESleep _ => True
  | EError label _ => label = "GPT Error:"
  | EFetch _ _ | EComment _ | ELog _ => False
  end.

(** The events of the publication of an issue: a line on the console, a
    comment on its path, the log of a refused comment. *)
Definition publishing (issue : Issue) (ev : Event) : Prop :=
  match ev with
  | ELog _ => True
  | EComment args => path args = Reviewer.path_of issue
  | EError label _ => label = "GitHub Comment Error:"
  | EFetch _ _ | EChat _ | ESleep _ => False
  end.

(** The events of a loop over [issues], issue after issue in their order:
    for each issue the events [lead] that come first, then its enrichment,
    which opens with its chat request, then its publication. *)
Inductive in_sequence (request : Issue -> ChatRequest) (lead : Issue -> list Event)
  : list Issue -> list Event -> Prop :=
| sequence_done : in_sequence request lead [] []
| sequence_issue (issue : Issue) (rest : list Issue)
    (enrich publish later : list Event) :
    Forall (enriching request issue) enrich ->
    Forall (publishing issue) publish ->
    publish <> [] ->
    in_sequence request lead rest later ->
    in_sequence request lead (issue :: rest)
      (lead issue ++ EChat (request issue) :: enrich ++ publish ++ later).

(** Nothing comes before the enrichment of an issue. *)
Definition no_lead (issue : Issue) : list Event := [].

(** The reading of the ordering under which nothing of an issue is
    published before its enrichment is over. *)
Definition enriched_before_published {Env : Type} (request : Issue -> ChatRequest)
  (body : Issue -> M Env unit) (issues : list Issue) (w : World Env) : Prop :=
  exists events w',
    for_of issues body w = (Ok tt, w')
    /\ trace w' = (trace w ++ events)%list
    /\ in_sequence request no_lead issues events.

(** A computation has thrown. *)
Definition raises {Env A : Type} (r : Outcome A * World Env) : Prop :=
  exists err w, r = (Throw err, w).

(** The reading of the fetch contract under which a failure means a
    non-success status and nothing else. *)
Definition raises_iff_bad_status {Env : Type} {services : Services Env}
  (cfg : Config) (w : World Env) : Prop :=
  forall res env',
    fetch (search_url cfg) (authorization cfg) (env w) = (Ok res, env') ->
    (raises (SonarReviewer.fetchSonarIssues cfg w) <-> ok res = false).

End Observe.

(** ** The start of [sonar-reviewer.js]

    Before anything else the file checks that the nine variables it needs
    are set, and stops the process when one is not. *)

Module Startup.

(** [process.env]: a variable is a string, or [undefined] when unset. *)
Definition Environment : Type := string -> option string.

(** The keys of [requiredEnvVars], in the order of the object literal. *)
Definition required_names : list string :=
  ["SONARQUBE_URL"; "SONARQUBE_PROJECT"; "SONARQUBE_TOKEN";
   "AZURE_OPENAI_API_KEY"; "AZURE_OPENAI_ENDPOINT"; "AZURE_OPENAI_DEPLOYMENT";
   "AZURE_OPENAI_API_VERSION"; "GITHUB_TOKEN"; "GIT_USERNAME"].

(** [Object.entries(requiredEnvVars)] *)
Definition requiredEnvVars (process_env : Environment) : list (string * option string) :=
  map (fun name => (name, process_env name)) required_names.

(** [!value] on a string or [undefined]. *)
Definition not_set (value : option string) : bool :=
  match value with
  | None | Some EmptyString => true
  | Some (String _ _) => false
  end.

Definition missingVars (process_env : Environment) : list string :=
  map fst (filter (fun entry => not_set (snd entry)) (requiredEnvVars process_env)).

(** What the start of the file does: it ends the process with a status
    after lines on the error stream, or goes on after a line on the
    console. *)
Inductive Start : Type :=
| Exit (status : Z) (errors : list string)
| Proceed (output : list string).

Definition start (process_env : Environment) : Start :=
  if (0 <? length (missingVars process_env))%nat
  then Exit 1
         (["❌ Missing required environment variables:"]
          ++ map (fun varName => "   - " ++ varName) (missingVars process_env)
          ++ [Js.nl ++ "Please create a .env file with these variables."])
  else Proceed
         ["🔧 Azure endpoint: "
          ++ match process_env "AZURE_OPENAI_ENDPOINT" with
             | Some endpoint => endpoint
             | None => "undefined"
             end].

(** An environment given as a list of settings; the first one counts. *)
Fixpoint lookup (settings : list (string * string)) (name : string) : option string :=
  match settings with
  | [] => None
  | (key, value) :: rest => if String.eqb key name then Some value else lookup rest name
  end.

(** An environment with all that is required, and one where the GitHub
    token is empty and the user name unset. *)
Definition complete : Environment :=
  lookup [("SONARQUBE_URL", "http://localhost:9000"); ("SONARQUBE_PROJECT", "myproj");
          ("SONARQUBE_TOKEN", "abc"); ("AZURE_OPENAI_API_KEY", "key");
          ("AZURE_OPENAI_ENDPOINT", "https://example.openai.azure.com");
          ("AZURE_OPENAI_DEPLOYMENT", "gpt-4o");
          ("AZURE_OPENAI_API_VERSION", "2024-02-15-preview");
          ("GITHUB_TOKEN", "ghp"); ("GIT_USERNAME", "octo")].

Definition partial : Environment :=
  lookup [("SONARQUBE_URL", "http://localhost:9000"); ("SONARQUBE_PROJECT", "myproj");
          ("SONARQUBE_TOKEN", "abc"); ("AZURE_OPENAI_API_KEY", "key");
          ("AZURE_OPENAI_ENDPOINT", "https://example.openai.azure.com");
          ("AZURE_OPENAI_DEPLOYMENT", "gpt-4o");
          ("AZURE_OPENAI_API_VERSION", "2024-02-15-preview");
          ("GITHUB_TOKEN", EmptyString)].

End Startup.

(** ** Measures on traces *)

Module Measure.

(** The outcome and the state of the outside world at the call number
    [n] (from 0) of a service that is called again and again. *)
Fixpoint replay {Env A : Type} (service : Env -> Outcome A * Env) (e : Env) (n : nat)
  : Outcome A * Env :=
  match n with
  | O => service e
  | S k => replay service (snd (service e)) k
  end.

(** The time asked of [setTimeout] in all, in milliseconds. *)
Fixpoint total_delay (events : list Event) : Z :=
  match events with
  | [] => 0
  | ESleep ms :: rest => ms + total_delay rest
  | _ :: rest => total_delay rest
  end.

Definition is_sleep (ev : Event) : bool :=
  match ev with
  | ESleep _ => true
  | _ => false
  end.

(** The events that are not delays. *)
Definition calls_in (events : list Event) : list Event :=
  filter (fun ev => negb (is_sleep ev)) events.

(** The lines written by [console.log]. *)
Definition logs_in (events : list Event) : list string :=
  flat_map (fun ev => match ev with ELog text => [text] | _ => [] end) events.

(** The lines of the console report for one issue and its review. *)
Definition block_lines (entry : Issue * string) : list string :=
  logs_in (Observe.issue_lines (fst entry))
  ++ logs_in (Observe.review_lines (snd entry)).

End Measure.

(** * Properties *)

(** ** The string operations *)

Module JsFacts.
Import Observe.

Lemma starts_with_spec (hay needle : string) :
  Js.starts_with hay needle = true <-> exists post, hay = needle ++ post.
Proof.
  revert hay. induction needle as [| a needle IH]; intros hay.
  - split; [intros _; now exists hay | destruct hay; reflexivity].
  - destruct hay as [| b hay]; simpl.
    + split; [discriminate | intros [post H]; discriminate].
    + rewrite andb_true_iff, Ascii.eqb_eq, IH. split.
      * intros [-> [post ->]]. now exists post.
      * intros [post H]. injection H as -> ->. split; [reflexivity | now exists post].
Qed.

Lemma includes_spec (hay needle : string) :
  Js.includes hay needle = true <-> exists pre post, hay = pre ++ needle ++ post.
Proof.
  induction hay as [| c hay IH]; cbn [Js.includes];
    rewrite orb_true_iff, starts_with_spec.
  - split.
    + intros [[post H] | H]; [| discriminate]. now exists EmptyString, post.
    + intros [[| c pre] [post H]]; [left; now exists post | discriminate].
  - rewrite IH. split.
    + intros [[post H] | [pre [post H]]].
      * now exists EmptyString, post.
      * exists (String c pre), post. simpl. now rewrite H.
    + intros [[| c' pre] [post H]].
      * left. now exists post.
      * right. simpl in H. injection H as _ H. now exists pre, post.
Qed.

Lemma split_nonempty sep s : Js.split sep s <> [].
Proof.
  destruct s as [| c s]; simpl; [discriminate |].
  destruct (Ascii.eqb c sep); [discriminate |].
  destruct (Js.split sep s); discriminate.
Qed.

(** A string without the separator is a single piece. *)
Lemma split_free sep s : free_of sep s -> Js.split sep s = [s].
Proof.
  induction s as [| c s IH]; simpl; [reflexivity |].
  intros [Hc Hs]. apply Ascii.eqb_neq in Hc. rewrite Hc, (IH Hs). reflexivity.
Qed.

(** The first piece ends at the first separator. *)
Lemma split_app sep s rest :
  free_of sep s ->
  Js.split sep (s ++ String sep rest) = s :: Js.split sep rest.
Proof.
  induction s as [| c s IH]; simpl.
  - intros _. now rewrite Ascii.eqb_refl.
  - intros [Hc Hs]. apply Ascii.eqb_neq in Hc. rewrite Hc, (IH Hs). reflexivity.
Qed.

Lemma append_assoc (a b c : string) : (a ++ b) ++ c = a ++ b ++ c.
Proof. induction a as [| x a IH]; simpl; [reflexivity | now rewrite IH]. Qed.

Lemma append_nil_r (a : string) : a ++ EmptyString = a.
Proof. induction a as [| x a IH]; simpl; [reflexivity | now rewrite IH]. Qed.

Lemma append_length (a b : string) :
  String.length (a ++ b) = (String.length a + String.length b)%nat.
Proof. induction a as [| x a IH]; simpl; [reflexivity | now rewrite IH]. Qed.

Lemma append_inv_head (a b c : string) : a ++ b = a ++ c -> b = c.
Proof. induction a as [| x a IH]; simpl; [auto | intros [= H]; auto]. Qed.

Lemma strip_prefix_spec w s rest :
  Js.strip_prefix w s = Some rest <-> s = w ++ rest.
Proof.
  revert s. induction w as [| a w IH]; intros s.
  - destruct s; simpl; split; congruence.
  - destruct s as [| b s]; simpl; [split; discriminate |].
    destruct (Ascii.eqb a b) eqn:Hab.
    + apply Ascii.eqb_eq in Hab. subst b. rewrite IH. split; congruence.
    + apply Ascii.eqb_neq in Hab. split; [discriminate | congruence].
Qed.

(** [strip_space] removes one white space character from the front. *)
Lemma strip_space_some s rest :
  Js.strip_space s = Some rest -> exists w, In w Js.white_space /\ s = w ++ rest.
Proof.
  unfold Js.strip_space. induction Js.white_space as [| w ws IH]; simpl; [discriminate |].
  destruct (Js.strip_prefix w s) as [found |] eqn:Hw.
  - intros [= <-]. exists w. split; [now left | now apply strip_prefix_spec].
  - intros Hrest. destruct (IH Hrest) as (w' & Hin & Hs). exists w'. auto.
Qed.

Lemma strip_space_none s :
  Js.strip_space s = None -> ~ starts_blank s.
Proof.
  unfold Js.strip_space, starts_blank.
  induction Js.white_space as [| w ws IH]; simpl.
  - intros _ (w' & rest & [] & _).
  - destruct (Js.strip_prefix w s) as [found |] eqn:Hw; [discriminate |].
    intros Hnone (w' & rest & [<- | Hin] & Hs).
    + apply strip_prefix_spec in Hs. congruence.
    + apply (IH Hnone). now exists w', rest.
Qed.

Lemma white_space_not_empty w : In w Js.white_space -> (1 <= String.length w)%nat.
Proof.
  intros Hin.
  assert (Hall : Forall (fun w => (1 <= String.length w)%nat) Js.white_space)
    by (repeat constructor).
  now apply (proj1 (Forall_forall _ _) Hall).
Qed.

Lemma strip_space_shorter s rest :
  Js.strip_space s = Some rest -> (String.length rest < String.length s)%nat.
Proof.
  intros Hstrip. destruct (strip_space_some _ _ Hstrip) as (w & Hin & ->).
  rewrite append_length. pose proof (white_space_not_empty w Hin). lia.
Qed.

(** Enough turns: what is left does not start with white space. *)
Lemma trim_start_from_spec turns :
  forall s, (String.length s <= turns)%nat ->
    exists pre,
      s = pre ++ Js.trim_start_from turns s /\ blank pre
      /\ Js.strip_space (Js.trim_start_from turns s) = None.
Proof.
  induction turns as [| turns IH]; intros s Hlen.
  - destruct s; [| simpl in Hlen; lia].
    exists EmptyString. repeat split. constructor.
  - simpl. destruct (Js.strip_space s) as [rest |] eqn:Hstrip.
    + destruct (strip_space_some _ _ Hstrip) as (w & Hin & ->).
      pose proof (strip_space_shorter _ _ Hstrip) as Hshorter.
      destruct (IH rest) as (pre & Hrest & Hpre & Hnone); [lia |].
      exists (w ++ pre). rewrite append_assoc, <- Hrest.
      repeat split; [now constructor | exact Hnone].
    + exists EmptyString. repeat split; [constructor | exact Hstrip].
Qed.

Lemma trim_start_spec s :
  exists pre, s = pre ++ Js.trim_start s /\ blank pre /\ ~ starts_blank (Js.trim_start s).
Proof.
  destruct (trim_start_from_spec (String.length s) s (le_n _)) as (pre & Hs & Hpre & Hnone).
  exists pre. repeat split; [exact Hs | exact Hpre | now apply strip_space_none].
Qed.

(** More turns than bytes change nothing. *)
Lemma trim_start_from_enough turns :
  forall more s, (String.length s <= turns)%nat -> (String.length s <= more)%nat ->
    Js.trim_start_from turns s = Js.trim_start_from more s.
Proof.
  induction turns as [| turns IH]; intros more s Hturns Hmore.
  - destruct s; [| simpl in Hturns; lia]. destruct more; reflexivity.
  - destruct more as [| more].
    + destruct s; [reflexivity | simpl in Hmore; lia].
    + simpl. destruct (Js.strip_space s) as [rest |] eqn:Hstrip; [| reflexivity].
      pose proof (strip_space_shorter _ _ Hstrip). apply IH; lia.
Qed.

(** If two strings with a common start each begin with [w] and [w'], one
    of these begins with the other. *)
Lemma common_start w w' x y :
  w ++ x = w' ++ y -> Js.starts_with w w' = true \/ Js.starts_with w' w = true.
Proof.
  revert w'. induction w as [| a w IH]; intros w' Heq.
  - right. destruct w'; reflexivity.
  - destruct w' as [| b w']; [left; reflexivity |].
    simpl in Heq. injection Heq as -> Heq. simpl. rewrite Ascii.eqb_refl. simpl.
    apply IH. exact Heq.
Qed.

(** No white space character is the start of another. *)
Lemma white_space_prefix_free w w' :
  In w Js.white_space -> In w' Js.white_space ->
  Js.starts_with w w' = true -> w = w'.
Proof.
  intros Hw Hw' Hstart.
  assert (Hall : forallb (fun u => forallb (fun v => implb (Js.starts_with u v)
                                                      (String.eqb u v))
                                      Js.white_space)
                         Js.white_space = true) by reflexivity.
  rewrite forallb_forall in Hall. specialize (Hall w Hw).
  rewrite forallb_forall in Hall. specialize (Hall w' Hw').
  rewrite Hstart in Hall. now apply String.eqb_eq.
Qed.

Lemma strip_space_app w rest :
  In w Js.white_space -> Js.strip_space (w ++ rest) = Some rest.
Proof.
  intros Hin. destruct (Js.strip_space (w ++ rest)) as [found |] eqn:Hstrip.
  - destruct (strip_space_some _ _ Hstrip) as (w' & Hin' & Heq).
    assert (Hsame : w = w').
    { destruct (common_start _ _ _ _ Heq) as [H | H].
      - now apply white_space_prefix_free.
      - symmetry. now apply white_space_prefix_free. }
    subst w'. apply append_inv_head in Heq. now subst.
  - exfalso. apply (strip_space_none _ Hstrip). now exists w, rest.
Qed.

Lemma trim_start_blank s : blank s -> Js.trim_start s = EmptyString.
Proof.
  induction 1 as [| w s Hin Hblank IH]; [reflexivity |].
  unfold Js.trim_start. rewrite append_length.
  pose proof (white_space_not_empty w Hin) as Hw.
  destruct (String.length w) as [| n]; [lia |].
  simpl. rewrite (strip_space_app _ _ Hin).
  rewrite (trim_start_from_enough _ (String.length s)) by lia. exact IH.
Qed.

Lemma is_blank_spec s : Js.is_blank s = true <-> blank s.
Proof.
  unfold Js.is_blank. rewrite String.eqb_eq. split; [| apply trim_start_blank].
  intros Hnothing. destruct (trim_start_spec s) as (pre & Hs & Hpre & _).
  rewrite Hnothing, append_nil_r in Hs. now subst.
Qed.

Lemma blank_app a b : blank a -> blank b -> blank (a ++ b).
Proof.
  induction 1 as [| w a Hin Ha IH]; intros Hb; [exact Hb |].
  rewrite append_assoc. constructor; auto.
Qed.

Lemma trim_end_cut s :
  exists post, s = Js.trim_end s ++ post /\ blank post.
Proof.
  induction s as [| c s (post & Hs & Hpost)].
  - exists EmptyString. split; [reflexivity | constructor].
  - cbn [Js.trim_end]. destruct (Js.is_blank (String c s)) eqn:Hblank.
    + exists (String c s). split; [reflexivity | now apply is_blank_spec].
    + exists post. simpl. now rewrite <- Hs.
Qed.

(** The cut is not later than any cut that leaves white space only. *)
Lemma trim_end_earliest front post :
  blank post -> (String.length (Js.trim_end (front ++ post)) <= String.length front)%nat.
Proof.
  intros Hpost. induction front as [| c front IH].
  - simpl. destruct post as [| c post]; [simpl; lia |].
    cbn [Js.trim_end]. rewrite (proj2 (is_blank_spec _) Hpost). simpl. lia.
  - change (String c front ++ post) with (String c (front ++ post)).
    cbn [Js.trim_end]. destruct (Js.is_blank (String c (front ++ post))); simpl; lia.
Qed.

Lemma trim_end_spec s :
  exists post, s = Js.trim_end s ++ post /\ blank post /\ ~ ends_blank (Js.trim_end s).
Proof.
  destruct (trim_end_cut s) as (post & Hs & Hpost).
  exists post. repeat split; [exact Hs | exact Hpost |].
  intros (front & w & Hin & Hend).
  assert (Hblank : blank (w ++ post))
    by (constructor; assumption).
  pose proof (trim_end_earliest front (w ++ post) Hblank) as Hlen.
  rewrite <- append_assoc, <- Hend, <- Hs, Hend, append_length in Hlen.
  pose proof (white_space_not_empty w Hin). lia.
Qed.

(** [trim] removes white space from both ends, and all of it: what is
    left neither starts nor ends with a white space character. *)
Lemma trim_spec s :
  exists pre post,
    s = pre ++ Js.trim s ++ post /\ blank pre /\ blank post
    /\ ~ starts_blank (Js.trim s) /\ ~ ends_blank (Js.trim s).
Proof.
  destruct (trim_start_spec s) as (pre & Hs & Hpre & Hstart).
  destruct (trim_end_spec (Js.trim_start s)) as (post & Ht & Hpost & Hend).
  exists pre, post. unfold Js.trim. rewrite <- Ht.
  repeat split; [exact Hs | exact Hpre | exact Hpost | | exact Hend].
  intros (w & rest & Hin & Hfront). apply Hstart.
  exists w, (rest ++ post). split; [exact Hin |].
  rewrite Ht, Hfront. apply append_assoc.
Qed.

End JsFacts.

Module RetryFacts.
Section Loop.
Import SonarReviewer.
Context {Env A : Type} (fn : M Env A) (options : RetryOptions).

Lemma withRetry_loop_unfold attempt lastErr w :
  withRetry_loop fn options attempt lastErr w =
  if attempt <=? retries options then
    match fn w with
    | (Ok result, w1) => (Ok result, w1)
    | (Throw err, w1) =>
        if negb (isConn err) || (attempt =? retries options)
        then (Throw err, w1)
        else withRetry_loop fn options (attempt + 1) err
               (snd (sleep (baseDelayMs options * 2 ^ attempt) w1))
    end
  else (Throw lastErr, w).
Proof.
  funelim (withRetry_loop fn options attempt lastErr w);
    repeat match goal with
           | E : (_ <=? _) = _ |- _ => rewrite E
           | E : fn _ = _ |- _ => rewrite E
           | E : negb _ || _ = _ |- _ => rewrite E
           end;
    reflexivity.
Qed.

(** The first failure the test does not recognise leaves the loop: the
    operation has run once and nothing else has happened. *)
Lemma withRetry_gives_up w err w1 :
  0 <= retries options ->
  fn w = (Throw err, w1) ->
  isConn err = false ->
  withRetry fn options w = (Throw err, w1).
Proof.
  intros Hbudget Hfn Hconn. unfold withRetry.
  rewrite withRetry_loop_unfold, Hfn, Hconn.
  destruct (0 <=? retries options) eqn:Hle; [reflexivity |].
  apply Z.leb_gt in Hle. lia.
Qed.

(** A success ends the loop at once. *)
Lemma withRetry_loop_success attempt lastErr w result w1 :
  attempt <= retries options ->
  fn w = (Ok result, w1) ->
  withRetry_loop fn options attempt lastErr w = (Ok result, w1).
Proof.
  intros Hle Hfn. rewrite withRetry_loop_unfold, Hfn.
  apply Z.leb_le in Hle. now rewrite Hle.
Qed.

(** A recognised failure, met before the last attempt, is followed by a
    delay and another turn of the loop. *)
Lemma withRetry_loop_again attempt lastErr w err w1 :
  attempt < retries options ->
  fn w = (Throw err, w1) ->
  isConn err = true ->
  withRetry_loop fn options attempt lastErr w =
  withRetry_loop fn options (attempt + 1) err
    (snd (sleep (baseDelayMs options * 2 ^ attempt) w1)).
Proof.
  intros Hlt Hfn Hconn. rewrite withRetry_loop_unfold, Hfn, Hconn.
  replace (attempt <=? retries options) with true by (symmetry; apply Z.leb_le; lia).
  replace (attempt =? retries options) with false by (symmetry; apply Z.eqb_neq; lia).
  reflexivity.
Qed.

(** With a negative [retries] the loop is never entered: the operation
    is not run and [lastErr], still [undefined], is thrown. *)
Lemma withRetry_negative_budget w :
  retries options < 0 ->
  withRetry fn options w = (Throw Js.ThrownUndefined, w).
Proof.
  intros Hneg. unfold withRetry. rewrite withRetry_loop_unfold.
  replace (0 <=? retries options) with false by (symmetry; apply Z.leb_gt; lia).
  reflexivity.
Qed.

End Loop.
End RetryFacts.

(** The shape of what [withRetry] does around a service call. *)
Module RetryTrace.
Section Call.
Import SonarReviewer Observe.
Context {Env A : Type} (ev : Event) (service : Env -> Outcome A * Env)
        (options : RetryOptions).

Lemma withRetry_loop_trace (k : nat) :
  forall attempt lastErr w,
    attempt <= retries options ->
    Z.to_nat (retries options - attempt) = k ->
    exists n,
      attempt + Z.of_nat n <= retries options
      /\ trace (snd (withRetry_loop (call ev service) options attempt lastErr w))
         = (trace w ++ ev :: further_attempts ev (baseDelayMs options) attempt n)%list.
Proof.
  induction k as [| k IH]; intros attempt lastErr w Hle Hk;
    rewrite RetryFacts.withRetry_loop_unfold;
    (replace (attempt <=? retries options) with true by (symmetry; apply Z.leb_le; lia));
    unfold call at 1; destruct (service (env w)) as [[result | err] env1].
  - exists O. split; [lia | reflexivity].
  - replace (attempt =? retries options) with true by (symmetry; apply Z.eqb_eq; lia).
    rewrite orb_true_r. exists O. split; [lia | reflexivity].
  - exists O. split; [lia | reflexivity].
  - destruct (negb (isConn err) || (attempt =? retries options)) eqn:Hstop.
    + exists O. split; [lia | reflexivity].
    + apply orb_false_iff in Hstop as [_ Hneq]. apply Z.eqb_neq in Hneq.
      match goal with
      | |- context [withRetry_loop _ _ _ _ ?w1] =>
          destruct (IH (attempt + 1) err w1) as (n & Hn & Htrace); [lia | lia |]
      end.
      exists (S n). split; [lia |]. rewrite Htrace. simpl.
      rewrite <- !app_assoc. reflexivity.
Qed.

(** [withRetry] makes a first call and then at most [retries] further
    attempts, each after its delay. *)
Lemma withRetry_trace w :
  0 <= retries options ->
  exists n,
    Z.of_nat n <= retries options
    /\ trace (snd (withRetry (call ev service) options w))
       = (trace w ++ ev :: further_attempts ev (baseDelayMs options) 0 n)%list.
Proof.
  intros Hbudget.
  destruct (withRetry_loop_trace (Z.to_nat (retries options - 0)) 0
              Js.ThrownUndefined w Hbudget eq_refl) as (n & Hn & Htrace).
  exists n. split; [lia | exact Htrace].
Qed.

End Call.
End RetryTrace.

(** ** The retry wrapper *)

Module IsConnFacts.
Import SonarReviewer.

(** The markers [isConn] looks for. *)
Lemma isConn_spec err :
  isConn err = true <->
  exists marker pre post,
    In marker ["APIConnectionError"; "fetch failed"; "ENOTFOUND"; "ETIMEDOUT"]
    /\ Js.message_text err = pre ++ marker ++ post.
Proof.
  unfold isConn. rewrite !orb_true_iff, !JsFacts.includes_spec. split.
  - intros [[[H | H] | H] | H]; destruct H as (pre & post & H);
      eexists _, pre, post; (split; [| exact H]); simpl; auto.
  - intros (marker & pre & post & Hin & H). simpl in Hin.
    destruct Hin as [<- | [<- | [<- | [<- | []]]]]; eauto 6.
Qed.

End IsConnFacts.

(** C3: when a service call fails twice with a failure [isConn] recognises
    and then succeeds, [withRetry] with [retries = 2] returns the value of
    the third call, and what it has done is exactly: the call, a delay of
    [baseDelayMs * 2^0], the call, a delay of [baseDelayMs * 2^1], the call. *)
Theorem withRetry_succeeds_on_third_attempt :
  forall (Env A : Type) (ev : Event) (service : Env -> Outcome A * Env)
         (baseDelay : Z) (e0 e1 e2 e3 : Env) (err1 err2 : Js.thrown)
         (result : A) (before : list Event),
    service e0 = (Throw err1, e1) -> SonarReviewer.isConn err1 = true ->
    service e1 = (Throw err2, e2) -> SonarReviewer.isConn err2 = true ->
    service e2 = (Ok result, e3) ->
    SonarReviewer.withRetry (call ev service)
      {| SonarReviewer.retries := 2; SonarReviewer.baseDelayMs := baseDelay |}
      {| env := e0; trace := before |}
    = (Ok result,
       {| env := e3;
          trace := before ++ [ev; ESleep (baseDelay * 2 ^ 0);
                              ev; ESleep (baseDelay * 2 ^ 1);
                              ev] |}).
Proof.
  intros Env A ev service baseDelay e0 e1 e2 e3 err1 err2 result before
         Hfirst Hconn1 Hsecond Hconn2 Hthird.
  unfold SonarReviewer.withRetry.
  erewrite RetryFacts.withRetry_loop_again;
    [| simpl; lia | unfold call; simpl; rewrite Hfirst; reflexivity | exact Hconn1].
  erewrite RetryFacts.withRetry_loop_again;
    [| simpl; lia | unfold call; simpl; rewrite Hsecond; reflexivity | exact Hconn2].
  erewrite RetryFacts.withRetry_loop_success;
    [| simpl; lia | unfold call; simpl; rewrite Hthird; reflexivity].
  simpl. rewrite <- !app_assoc. reflexivity.
Qed.

Lemma withRetry_succeeds_on_third_attempt_witness :
  SonarReviewer.withRetry (call (ELog "attempt") Scripted.answer_chat)
    {| SonarReviewer.retries := 2; SonarReviewer.baseDelayMs := 500 |}
    (Scripted.start
       {| Scripted.http := Scripted.found [];
          Scripted.chats := [Throw (Js.Error "fetch failed");
                             Throw (Js.Error "getaddrinfo ENOTFOUND example.invalid");
                             Scripted.reply "done"];
          Scripted.comments := [] |})
  = (Ok {| choices := [{| message_content := Some "done" |}] |},
     {| env := {| Scripted.http := Scripted.found [];
                  Scripted.chats := [];
                  Scripted.comments := [] |};
        trace := [ELog "attempt"; ESleep 500; ELog "attempt"; ESleep 1000;
                  ELog "attempt"] |}).
Proof.
  eapply (withRetry_succeeds_on_third_attempt Scripted.Script ChatResponse
           (ELog "attempt") Scripted.answer_chat 500
           _ _ _ _ (Js.Error "fetch failed")
           (Js.Error "getaddrinfo ENOTFOUND example.invalid")
           _ []); reflexivity.
Defined.

(** C4: when a service call fails with a failure [isConn] does not
    recognise, [withRetry] throws that same failure after the one call: no
    delay and no second call, whatever the number of retries allowed (a
    count, so not negative). *)
Theorem withRetry_rethrows_unrecognised_failure :
  forall (Env A : Type) (ev : Event) (service : Env -> Outcome A * Env)
         (options : SonarReviewer.RetryOptions) (e0 e1 : Env)
         (err : Js.thrown) (before : list Event),
    0 <= SonarReviewer.retries options ->
    service e0 = (Throw err, e1) ->
    SonarReviewer.isConn err = false ->
    SonarReviewer.withRetry (call ev service) options {| env := e0; trace := before |}
    = (Throw err, {| env := e1; trace := before ++ [ev] |}).
Proof.
  intros Env A ev service options e0 e1 err before Hbudget Hcall Hconn.
  apply RetryFacts.withRetry_gives_up; [exact Hbudget | | exact Hconn].
  unfold call. simpl. rewrite Hcall. reflexivity.
Qed.

Lemma withRetry_rethrows_unrecognised_failure_witness :
  SonarReviewer.withRetry (call (ELog "attempt") Scripted.answer_chat)
    {| SonarReviewer.retries := 5; SonarReviewer.baseDelayMs := 500 |}
    (Scripted.start
       {| Scripted.http := Scripted.found [];
          Scripted.chats := [Throw (Js.Error "401 Unauthorized"); Scripted.reply "done"];
          Scripted.comments := [] |})
  = (Throw (Js.Error "401 Unauthorized"),
     {| env := {| Scripted.http := Scripted.found [];
                  Scripted.chats := [Scripted.reply "done"];
                  Scripted.comments := [] |};
        trace := [ELog "attempt"] |}).
Proof.
  eapply (withRetry_rethrows_unrecognised_failure Scripted.Script ChatResponse
           (ELog "attempt") Scripted.answer_chat
           {| SonarReviewer.retries := 5; SonarReviewer.baseDelayMs := 500 |}
           _ _ (Js.Error "401 Unauthorized") []);
    [simpl; lia | reflexivity | reflexivity].
Defined.

(** ** The issue source *)

(** C5, as stated, fails: the server of [Scripted.unparsable] answers with a
    success status, and [fetchSonarIssues] throws all the same, because
    [res.json()] rejects. *)
Lemma fetchSonarIssues_raises_on_success_status :
  ~ Observe.raises_iff_bad_status Scripted.cfg (Scripted.start Scripted.unparsable).
Proof.
  intros Hclaim.
  destruct (Hclaim _ _ eq_refl) as [Hraises _].
  discriminate Hraises.
  now exists (Js.Error "Unexpected token < in JSON at position 0"),
             {| env := Scripted.unparsable;
                trace := [EFetch (search_url Scripted.cfg) (authorization Scripted.cfg)] |}.
Qed.

(** C5, amended: both variants fetch alike.  A response with a non-success
    status makes [fetchSonarIssues] throw an error that carries the status
    text.  A response with a success status whose body parses to a value
    other than [null] gives the [issues] array as the server sent it, or
    the empty array when the property is missing or falsy.  The failure of
    the request itself, and the failure to parse the body of a success
    response, are thrown on unchanged; and a body that parses to [null]
    makes the reading of [issues] throw a [TypeError]. *)
Theorem fetchSonarIssues_outcomes :
  forall (Env : Type) (services : Services Env) (cfg : Config) (w : World Env)
         (answer : Outcome HttpResponse) (env' : Env),
    fetch (search_url cfg) (authorization cfg) (env w) = (answer, env') ->
    let w' := {| env := env';
                 trace := trace w ++ [EFetch (search_url cfg) (authorization cfg)] |} in
    Reviewer.fetchSonarIssues cfg w = SonarReviewer.fetchSonarIssues cfg w
    /\ (forall res, answer = Ok res -> ok res = false ->
        SonarReviewer.fetchSonarIssues cfg w
        = (Throw (Js.Error ("SonarQube API error: " ++ statusText res)), w'))
    /\ (forall res found,
          answer = Ok res -> ok res = true ->
          json res = Ok (BodyValue (IssuesArray found)) ->
          SonarReviewer.fetchSonarIssues cfg w = (Ok found, w'))
    /\ (forall res issues,
          answer = Ok res -> ok res = true ->
          json res = Ok (BodyValue issues) ->
          issues = IssuesAbsent \/ issues = IssuesFalsy ->
          SonarReviewer.fetchSonarIssues cfg w = (Ok [], w'))
    /\ (forall res,
          answer = Ok res -> ok res = true -> json res = Ok BodyNull ->
          SonarReviewer.fetchSonarIssues cfg w
          = (Throw (Js.Error "Cannot read properties of null (reading 'issues')"), w'))
    /\ (forall res err,
          answer = Ok res -> ok res = true -> json res = Throw err ->
          SonarReviewer.fetchSonarIssues cfg w = (Throw err, w'))
    /\ (forall err,
          answer = Throw err ->
          SonarReviewer.fetchSonarIssues cfg w = (Throw err, w')).
Proof.
  intros Env services cfg w answer env' Hfetch w'.
  split; [reflexivity |].
  unfold SonarReviewer.fetchSonarIssues, bind, call. rewrite Hfetch.
  repeat split.
  - intros res -> Hok. rewrite Hok. reflexivity.
  - intros res found -> Hok Hjson. rewrite Hok. simpl.
    unfold settle. rewrite Hjson. reflexivity.
  - intros res issues -> Hok Hjson Hnone. rewrite Hok. simpl.
    unfold settle. rewrite Hjson. destruct Hnone as [-> | ->]; reflexivity.
  - intros res -> Hok Hjson. rewrite Hok. simpl.
    unfold settle. rewrite Hjson. reflexivity.
  - intros res err -> Hok Hjson. rewrite Hok. simpl.
    unfold settle. now rewrite Hjson.
  - intros err ->. reflexivity.
Qed.

Lemma fetchSonarIssues_outcomes_witness :
  SonarReviewer.fetchSonarIssues Scripted.cfg (Scripted.start Scripted.refused)
  = (Throw (Js.Error "SonarQube API error: Unauthorized"),
     {| env := Scripted.refused;
        trace := [EFetch "http://localhost:9000/api/issues/search?componentKeys=myproj&resolved=false"
                         "Basic YWJjOg=="] |})
  /\ SonarReviewer.fetchSonarIssues Scripted.cfg (Scripted.start Scripted.null_body)
     = (Throw (Js.Error "Cannot read properties of null (reading 'issues')"),
        {| env := Scripted.null_body;
           trace := [EFetch "http://localhost:9000/api/issues/search?componentKeys=myproj&resolved=false"
                            "Basic YWJjOg=="] |})
  /\ SonarReviewer.fetchSonarIssues Scripted.cfg (Scripted.start Scripted.helpful)
     = (Ok [Scripted.sample],
        {| env := Scripted.helpful;
           trace := [EFetch "http://localhost:9000/api/issues/search?componentKeys=myproj&resolved=false"
                            "Basic YWJjOg=="] |}).
Proof.
  split; [| split].
  - exact (proj1 (proj2 (fetchSonarIssues_outcomes Scripted.Script Scripted.services
                           Scripted.cfg (Scripted.start Scripted.refused)
                           (Scripted.http Scripted.refused) Scripted.refused eq_refl))
             _ eq_refl eq_refl).
  - exact (proj1 (proj2 (proj2 (proj2 (proj2
             (fetchSonarIssues_outcomes Scripted.Script Scripted.services
                Scripted.cfg (Scripted.start Scripted.null_body)
                (Scripted.http Scripted.null_body) Scripted.null_body eq_refl)))))
             _ eq_refl eq_refl eq_refl).
  - exact (proj1 (proj2 (proj2
             (fetchSonarIssues_outcomes Scripted.Script Scripted.services
                Scripted.cfg (Scripted.start Scripted.helpful)
                (Scripted.http Scripted.helpful) Scripted.helpful eq_refl)))
             _ _ eq_refl eq_refl eq_refl).
Defined.

(** ** The enrichment service *)

Module EnhanceFacts.
Section Enhance.
Import Observe.
Context {Env : Type} {services : Services Env} (cfg : Config) (issue : Issue).

Lemma console_enhance_settled w :
  SonarReviewer.enhanceWithGPT cfg issue w = settled issue (console_call cfg issue w).
Proof.
  unfold SonarReviewer.enhanceWithGPT, try_catch, bind, settled.
  fold (console_call cfg issue).
  destruct (console_call cfg issue w) as [[response | err] w1]; [| reflexivity].
  unfold settle. destruct (first_choice_text response); reflexivity.
Qed.

Lemma review_enhance_settled w :
  Reviewer.enhanceWithGPT issue w = settled issue (review_call issue w).
Proof.
  unfold Reviewer.enhanceWithGPT, try_catch, bind, settled.
  fold (review_call issue).
  destruct (review_call issue w) as [[response | err] w1]; [| reflexivity].
  unfold settle. destruct (first_choice_text response); reflexivity.
Qed.

Lemma settled_returns (answer : Outcome ChatResponse * World Env) :
  exists text w', settled issue answer = (Ok text, w').
Proof.
  destruct answer as [[response | err] w1]; simpl; [| eauto].
  destruct (first_choice_text response); eauto.
Qed.

End Enhance.
End EnhanceFacts.

(** ** The publishers *)

Module PublishFacts.
Section Publish.
Import Observe.
Context {Env : Type} {services : Services Env} (cfg : Config).

Lemma print_issue_lines issue (w : World Env) :
  SonarReviewer.print_issue issue w = (Ok tt, extend w (issue_lines issue)).
Proof.
  unfold SonarReviewer.print_issue, bind, console_log, emit, extend. simpl.
  rewrite <- !app_assoc. reflexivity.
Qed.

Lemma print_review_lines gptComment (w : World Env) :
  SonarReviewer.print_review gptComment w = (Ok tt, extend w (review_lines gptComment)).
Proof.
  unfold SonarReviewer.print_review, bind, console_log, emit, extend. simpl.
  rewrite <- !app_assoc. reflexivity.
Qed.

(** The console report of one issue: its lines, the enrichment, the
    review. *)
Lemma console_run_body issue (w : World Env) :
  SonarReviewer.run_body cfg issue w =
  match SonarReviewer.enhanceWithGPT cfg issue (extend w (issue_lines issue)) with
  | (Ok gptComment, w1) => (Ok tt, extend w1 (review_lines gptComment))
  | (Throw err, w1) => (Throw err, w1)
  end.
Proof.
  unfold SonarReviewer.run_body, bind at 1. rewrite print_issue_lines.
  unfold bind.
  destruct (SonarReviewer.enhanceWithGPT cfg issue _) as [[gptComment | err] w1];
    [apply print_review_lines | reflexivity].
Qed.

(** [postComment] sends the request and never throws. *)
Lemma postComment_outcome body path line (w : World Env) :
  exists failure,
    comment_failure failure
    /\ Reviewer.postComment cfg body path line w
       = (Ok tt,
          {| env := snd (pulls_createReviewComment
                           (Reviewer.comment_args cfg body path line) (env w));
             trace := trace w
                      ++ EComment (Reviewer.comment_args cfg body path line) :: failure |}).
Proof.
  unfold Reviewer.postComment, try_catch, call.
  destruct (pulls_createReviewComment _ (env w)) as [[[] | err] env1]; simpl.
  - exists []. split; [now left | reflexivity].
  - exists [EError "GitHub Comment Error:" err]. split; [right; now exists err |].
    unfold console_error, emit. simpl. now rewrite <- app_assoc.
Qed.

(** The review comment of one issue: the enrichment, the log line, the
    comment. *)
Lemma review_run_body issue (w : World Env) :
  Reviewer.run_body cfg issue w =
  match Reviewer.enhanceWithGPT issue w with
  | (Ok gptComment, w1) =>
      Reviewer.postComment cfg gptComment (Reviewer.path_of issue) (line issue)
        (extend w1 [ELog ("💬 " ++ gptComment)])
  | (Throw err, w1) => (Throw err, w1)
  end.
Proof.
  unfold Reviewer.run_body, bind.
  destruct (Reviewer.enhanceWithGPT issue w) as [[gptComment | err] w1]; reflexivity.
Qed.

End Publish.
End PublishFacts.

(** C2: when the chat call fails, whether [withRetry] has given up on it
    (console report) or at its first failure (review comments),
    [enhanceWithGPT] logs the failure and returns the [message] of the issue
    unchanged.  In no case does [enhanceWithGPT] throw. *)
Theorem enhanceWithGPT_falls_back_to_message :
  forall (Env : Type) (services : Services Env) (cfg : Config) (issue : Issue)
         (w : World Env),
    (forall err w1,
        Observe.console_call cfg issue w = (Throw err, w1) ->
        SonarReviewer.enhanceWithGPT cfg issue w
        = (Ok (message issue), Observe.extend w1 [EError "GPT Error:" err]))
    /\ (forall err env1,
          chat_completions_create (Reviewer.chat_request issue) (env w) = (Throw err, env1) ->
          Reviewer.enhanceWithGPT issue w
          = (Ok (message issue),
             {| env := env1;
                trace := trace w ++ [EChat (Reviewer.chat_request issue);
                                     EError "GPT Error:" err] |}))
    /\ (exists text w', SonarReviewer.enhanceWithGPT cfg issue w = (Ok text, w'))
    /\ (exists text w', Reviewer.enhanceWithGPT issue w = (Ok text, w')).
Proof.
  intros Env services cfg issue w. repeat split.
  - intros err w1 Hcall.
    rewrite EnhanceFacts.console_enhance_settled, Hcall. reflexivity.
  - intros err env1 Hcall.
    rewrite EnhanceFacts.review_enhance_settled.
    unfold Observe.review_call, call. rewrite Hcall. simpl.
    unfold Observe.extend. simpl. now rewrite <- app_assoc.
  - rewrite EnhanceFacts.console_enhance_settled. apply EnhanceFacts.settled_returns.
  - rewrite EnhanceFacts.review_enhance_settled. apply EnhanceFacts.settled_returns.
Qed.

Lemma enhanceWithGPT_falls_back_to_message_witness :
  SonarReviewer.enhanceWithGPT Scripted.cfg Scripted.sample
    (Scripted.start Scripted.unreachable)
  = (Ok "Remove this unused variable.",
     Observe.extend
       (snd (Observe.console_call Scripted.cfg Scripted.sample
               (Scripted.start Scripted.unreachable)))
       [EError "GPT Error:" (Js.Error "connect ETIMEDOUT 10.0.0.1:443")])
  /\ Reviewer.enhanceWithGPT Scripted.sample (Scripted.start Scripted.unauthorized)
     = (Ok "Remove this unused variable.",
        {| env := {| Scripted.http := Scripted.found [];
                     Scripted.chats := [];
                     Scripted.comments := [] |};
           trace := [EChat (Reviewer.chat_request Scripted.sample);
                     EError "GPT Error:" (Js.Error "401 Unauthorized")] |}).
Proof.
  split.
  - apply (proj1 (enhanceWithGPT_falls_back_to_message Scripted.Script
                    Scripted.services Scripted.cfg Scripted.sample
                    (Scripted.start Scripted.unreachable))).
    vm_compute. reflexivity.
  - apply (proj1 (proj2 (enhanceWithGPT_falls_back_to_message Scripted.Script
                           Scripted.services Scripted.cfg Scripted.sample
                           (Scripted.start Scripted.unauthorized)))).
    reflexivity.
Defined.

(** C6: when the chat call succeeds and its first choice holds a text,
    [enhanceWithGPT] returns that text trimmed, and the trimmed text is what
    the console report prints as review and what the review comment carries
    as body. *)
Theorem enhanced_text_is_published :
  forall (Env : Type) (services : Services Env) (cfg : Config) (issue : Issue)
         (w : World Env) (response : ChatResponse) (text : string)
         (others : list Choice),
    choices response = {| message_content := Some text |} :: others ->
    (forall w1,
        Observe.console_call cfg issue w = (Ok response, w1) ->
        SonarReviewer.enhanceWithGPT cfg issue w = (Ok (Js.trim text), w1))
    /\ (forall w1,
          Observe.console_call cfg issue (Observe.extend w (Observe.issue_lines issue))
          = (Ok response, w1) ->
          SonarReviewer.run_body cfg issue w
          = (Ok tt, Observe.extend w1 (Observe.review_lines (Js.trim text))))
    /\ (forall env1,
          chat_completions_create (Reviewer.chat_request issue) (env w)
          = (Ok response, env1) ->
          Reviewer.enhanceWithGPT issue w
          = (Ok (Js.trim text),
             {| env := env1; trace := trace w ++ [EChat (Reviewer.chat_request issue)] |})
          /\ exists failure env2,
              Observe.comment_failure failure
              /\ Reviewer.run_body cfg issue w
                 = (Ok tt,
                    {| env := env2;
                       trace := trace w
                                ++ [EChat (Reviewer.chat_request issue);
                                    ELog ("💬 " ++ Js.trim text);
                                    EComment (Reviewer.comment_args cfg (Js.trim text)
                                                (Reviewer.path_of issue) (line issue))]
                                ++ failure |})).
Proof.
  intros Env services cfg issue w response text others Hchoices.
  assert (Htext : first_choice_text response = Ok (Js.trim text))
    by (unfold first_choice_text; now rewrite Hchoices).
  assert (Hconsole : forall w0 w1,
             Observe.console_call cfg issue w0 = (Ok response, w1) ->
             SonarReviewer.enhanceWithGPT cfg issue w0 = (Ok (Js.trim text), w1)).
  { intros w0 w1 Hcall.
    rewrite EnhanceFacts.console_enhance_settled, Hcall. simpl. now rewrite Htext. }
  split; [exact (Hconsole w) |]. split.
  - intros w1 Hcall.
    rewrite PublishFacts.console_run_body, (Hconsole _ _ Hcall). reflexivity.
  - intros env1 Hcall.
    assert (Henhance :
              Reviewer.enhanceWithGPT issue w
              = (Ok (Js.trim text),
                 {| env := env1;
                    trace := trace w ++ [EChat (Reviewer.chat_request issue)] |})).
    { rewrite EnhanceFacts.review_enhance_settled.
      unfold Observe.review_call, call. rewrite Hcall. simpl. now rewrite Htext. }
    split; [exact Henhance |].
    rewrite PublishFacts.review_run_body, Henhance.
    match goal with
    | |- context [Reviewer.postComment cfg ?b ?p ?l ?w0] =>
        destruct (PublishFacts.postComment_outcome cfg b p l w0)
          as (failure & Hfailure & Hpost)
    end.
    eexists failure, _. split; [exact Hfailure |].
    rewrite Hpost. simpl. rewrite <- !app_assoc. reflexivity.
Qed.

Lemma enhanced_text_is_published_witness :
  SonarReviewer.run_body Scripted.cfg Scripted.sample (Scripted.start Scripted.helpful)
  = (Ok tt,
     Observe.extend
       (snd (Observe.console_call Scripted.cfg Scripted.sample
               (Observe.extend (Scripted.start Scripted.helpful)
                  (Observe.issue_lines Scripted.sample))))
       [ELog (Js.nl ++ "🤖 GPT Enhanced Review:");
        ELog "Drop the unused variable.";
        ELog Js.nl])
  /\ Reviewer.enhanceWithGPT Scripted.sample (Scripted.start Scripted.helpful)
     = (Ok "Drop the unused variable.",
        {| env := {| Scripted.http := Scripted.found [Scripted.sample];
                     Scripted.chats := [];
                     Scripted.comments := [Ok tt] |};
           trace := [EChat (Reviewer.chat_request Scripted.sample)] |}).
Proof.
  pose proof (enhanced_text_is_published Scripted.Script Scripted.services
                Scripted.cfg Scripted.sample (Scripted.start Scripted.helpful)
                {| choices := [{| message_content := Some Scripted.padded |}] |}
                Scripted.padded [] eq_refl) as (_ & Hconsole & Hreview).
  split.
  - apply Hconsole. vm_compute. reflexivity.
  - apply (Hreview _ eq_refl).
Defined.

(** A review comment of one issue, event by event. *)
Lemma review_run_body_events :
  forall (Env : Type) (services : Services Env) (cfg : Config) (issue : Issue)
         (w : World Env),
  exists gptComment enrich failure env2,
    Reviewer.run_body cfg issue w
    = (Ok tt,
       {| env := env2;
          trace := trace w
                   ++ (EChat (Reviewer.chat_request issue) :: enrich)
                   ++ [ELog ("💬 " ++ gptComment);
                       EComment (Reviewer.comment_args cfg gptComment
                                   (Reviewer.path_of issue) (line issue))]
                   ++ failure |})
    /\ (enrich = [] \/ exists err, enrich = [EError "GPT Error:" err])
    /\ Observe.comment_failure failure.
Proof.
  intros Env services cfg issue w.
  rewrite PublishFacts.review_run_body, EnhanceFacts.review_enhance_settled.
  unfold Observe.review_call, call.
  destruct (chat_completions_create _ (env w)) as [answer env1].
  assert (Hsettled :
            exists gptComment enrich,
              Observe.settled issue
                (answer, {| env := env1;
                            trace := trace w ++ [EChat (Reviewer.chat_request issue)] |})
              = (Ok gptComment,
                 {| env := env1;
                    trace := trace w ++ EChat (Reviewer.chat_request issue) :: enrich |})
              /\ (enrich = [] \/ exists err, enrich = [EError "GPT Error:" err])).
  { unfold Observe.settled, Observe.extend. simpl.
    destruct answer as [response | err];
      [destruct (first_choice_text response) as [text | err] |].
    - exists text, []. split; [reflexivity | now left].
    - exists (message issue), [EError "GPT Error:" err].
      rewrite <- app_assoc. split; [reflexivity | right; now exists err].
    - exists (message issue), [EError "GPT Error:" err].
      rewrite <- app_assoc. split; [reflexivity | right; now exists err]. }
  destruct Hsettled as (gptComment & enrich & -> & Henrich).
  match goal with
  | |- context [Reviewer.postComment cfg ?b ?p ?l ?w0] =>
      destruct (PublishFacts.postComment_outcome cfg b p l w0)
        as (failure & Hfailure & Hpost)
  end.
  exists gptComment, enrich, failure. eexists. rewrite Hpost. simpl.
  split; [| split; assumption].
  rewrite <- !app_assoc. reflexivity.
Qed.

(** ** The line of an issue *)

(** C7: for an issue with no [line], the prompt of either variant shows
    [N/A] after [Line: ], and the review comment is requested at line 1. *)
Theorem absent_line_shows_NA_and_posts_at_line_1 :
  forall (issue : Issue),
    line issue = Js.Undefined ->
    SonarReviewer.prompt issue = Observe.prompt_showing issue "N/A"
    /\ Reviewer.prompt issue = Observe.prompt_showing issue "N/A"
    /\ (forall (Env : Type) (services : Services Env) (cfg : Config) (w : World Env),
          exists events w',
            Reviewer.run_body cfg issue w = (Ok tt, w')
            /\ trace w' = (trace w ++ events)%list
            /\ map comment_line (Observe.comments_in events) = [Js.Num 1]
            /\ map messages (Observe.chats_in events)
               = [[{| role := "user";
                      content := Observe.prompt_showing issue "N/A" |}]]).
Proof.
  intros issue Hline.
  assert (Hprompt : Reviewer.prompt issue = Observe.prompt_showing issue "N/A")
    by (unfold Reviewer.prompt; now rewrite Hline).
  split; [unfold SonarReviewer.prompt; now rewrite Hline |].
  split; [exact Hprompt |].
  intros Env services cfg w.
  destruct (review_run_body_events Env services cfg issue w)
    as (gptComment & enrich & failure & env2 & Hrun & Henrich & Hfailure).
  eexists _, _. split; [exact Hrun |]. split; [reflexivity |].
  unfold Reviewer.chat_request. rewrite Hprompt, Hline.
  destruct Henrich as [-> | [err ->]], Hfailure as [-> | [err' ->]];
    split; reflexivity.
Qed.

Lemma absent_line_shows_NA_and_posts_at_line_1_witness :
  SonarReviewer.prompt (Scripted.issue_on "myproj:src/a/b.ts" Js.Undefined)
  = Observe.prompt_showing (Scripted.issue_on "myproj:src/a/b.ts" Js.Undefined) "N/A".
Proof.
  exact (proj1 (absent_line_shows_NA_and_posts_at_line_1
                  (Scripted.issue_on "myproj:src/a/b.ts" Js.Undefined) eq_refl)).
Defined.

Lemma or_else_falsy (v d : Js.value) : Js.truthy v = false -> Js.or_else v d = d.
Proof. unfold Js.or_else. now intros ->. Qed.

(** ** A run without issues *)

(** C9: when the fetch returns no issue, [run] returns normally and the
    process exits with status 0.  The console report has then printed the
    count and the closing line, the other variant nothing: no chat request
    and no comment request has been made. *)
Theorem run_without_issues :
  forall (Env : Type) (services : Services Env) (cfg : Config) (w : World Env),
    (forall w1,
        SonarReviewer.fetchSonarIssues cfg
          (Observe.extend w [ELog "🔍 Fetching SonarQube issues..."]) = (Ok [], w1) ->
        let done :=
          Observe.extend w1 [ELog "📊 Found 0 issues in SonarQube";
                             ELog "✅ No issues found! Code looks clean."] in
        SonarReviewer.run cfg w = (Ok tt, done)
        /\ SonarReviewer.main cfg w = (Ok 0, done)
        /\ trace done
           = (trace w ++ [ELog "🔍 Fetching SonarQube issues...";
                          EFetch (search_url cfg) (authorization cfg);
                          ELog "📊 Found 0 issues in SonarQube";
                          ELog "✅ No issues found! Code looks clean."])%list)
    /\ (forall w1,
          Reviewer.fetchSonarIssues cfg w = (Ok [], w1) ->
          Reviewer.run cfg w = (Ok tt, w1)
          /\ Reviewer.main cfg w = (Ok 0, w1)
          /\ trace w1 = (trace w ++ [EFetch (search_url cfg) (authorization cfg)])%list).
Proof.
  intros Env services cfg w.
  assert (Hsent : forall (w0 w1 : World Env) (found : list Issue),
             SonarReviewer.fetchSonarIssues cfg w0 = (Ok found, w1) ->
             trace w1 = (trace w0 ++ [EFetch (search_url cfg) (authorization cfg)])%list).
  { intros w0 w1 found. unfold SonarReviewer.fetchSonarIssues, bind, call.
    destruct (fetch _ _ (env w0)) as [[res | err] env1]; [| discriminate].
    destruct (ok res); simpl; [| discriminate].
    unfold settle, ret. destruct (json res) as [data |]; [| discriminate].
    destruct (read_issues data); [| discriminate].
    now intros [= _ <-]. }
  split.
  - intros w1 Hfetch done.
    assert (Hrun : SonarReviewer.run cfg w = (Ok tt, done)).
    { unfold SonarReviewer.run, bind at 1. unfold console_log at 1, emit.
      fold (Observe.extend w [ELog "🔍 Fetching SonarQube issues..."]).
      unfold bind at 1. rewrite Hfetch. simpl.
      unfold bind, console_log, emit, done, Observe.extend. simpl.
      now rewrite <- app_assoc. }
    split; [exact Hrun |]. split.
    + unfold SonarReviewer.main, try_catch, bind. now rewrite Hrun.
    + unfold done, Observe.extend. simpl. rewrite (Hsent _ _ _ Hfetch). simpl.
      now rewrite <- !app_assoc.
  - intros w1 Hfetch.
    assert (Hrun : Reviewer.run cfg w = (Ok tt, w1))
      by (unfold Reviewer.run, bind; now rewrite Hfetch).
    split; [exact Hrun |]. split.
    + unfold Reviewer.main, try_catch, bind. now rewrite Hrun.
    + exact (Hsent _ _ _ Hfetch).
Qed.

Lemma run_without_issues_witness :
  SonarReviewer.main Scripted.cfg (Scripted.start Scripted.unreachable)
  = (Ok 0,
     {| env := Scripted.unreachable;
        trace := [ELog "🔍 Fetching SonarQube issues...";
                  EFetch (search_url Scripted.cfg) (authorization Scripted.cfg);
                  ELog "📊 Found 0 issues in SonarQube";
                  ELog "✅ No issues found! Code looks clean."] |})
  /\ Reviewer.main Scripted.cfg (Scripted.start Scripted.unreachable)
     = (Ok 0,
        {| env := Scripted.unreachable;
           trace := [EFetch (search_url Scripted.cfg) (authorization Scripted.cfg)] |}).
Proof.
  pose proof (run_without_issues Scripted.Script Scripted.services Scripted.cfg
                (Scripted.start Scripted.unreachable)) as [Hconsole Hreview].
  split.
  - exact (proj1 (proj2 (Hconsole _ eq_refl))).
  - exact (proj1 (proj2 (Hreview _ eq_refl))).
Defined.

(** ** The order of the work *)

Module OrderFacts.
Section Order.
Import Observe.
Context {Env : Type} {services : Services Env} (cfg : Config).

Lemma further_attempts_enriching request issue base attempt n :
  Forall (enriching request issue)
         (further_attempts (EChat (request issue)) base attempt n).
Proof.
  revert attempt. induction n as [| n IH]; intros attempt; simpl.
  - constructor.
  - repeat constructor. apply IH.
Qed.

(** One issue of the console report, event by event. *)
Lemma console_run_body_events issue (w : World Env) :
  exists gptComment enrich w',
    SonarReviewer.run_body cfg issue w = (Ok tt, w')
    /\ trace w' = (trace w
                   ++ issue_lines issue
                   ++ EChat (SonarReviewer.chat_request cfg issue) :: enrich
                   ++ review_lines gptComment)%list
    /\ Forall (enriching (SonarReviewer.chat_request cfg) issue) enrich.
Proof.
  rewrite PublishFacts.console_run_body, EnhanceFacts.console_enhance_settled.
  destruct (RetryTrace.withRetry_trace
              (EChat (SonarReviewer.chat_request cfg issue))
              (chat_completions_create (SonarReviewer.chat_request cfg issue))
              SonarReviewer.default_options
              (extend w (issue_lines issue)))
    as (n & _ & Htrace); [simpl; lia |].
  fold (console_call cfg issue) in Htrace.
  pose proof (further_attempts_enriching (SonarReviewer.chat_request cfg) issue
                500 0 n) as Hattempts.
  simpl in Htrace.
  destruct (console_call cfg issue (extend w (issue_lines issue)))
    as [answer w1]. simpl in Htrace.
  assert (Hsettled :
            exists gptComment failure,
              settled issue (answer, w1) = (Ok gptComment, extend w1 failure)
              /\ Forall (enriching (SonarReviewer.chat_request cfg) issue) failure).
  { unfold settled.
    destruct answer as [response | err];
      [destruct (first_choice_text response) as [text | err] |].
    - exists text, []. split; [| constructor].
      unfold extend. destruct w1. simpl. now rewrite app_nil_r.
    - exists (message issue), [EError "GPT Error:" err].
      split; [reflexivity | repeat constructor].
    - exists (message issue), [EError "GPT Error:" err].
      split; [reflexivity | repeat constructor]. }
  destruct Hsettled as (gptComment & failure & -> & Hfailure).
  exists gptComment, (further_attempts (EChat (SonarReviewer.chat_request cfg issue))
                        500 0 n ++ failure)%list.
  eexists. split; [reflexivity |]. split.
  - unfold extend. cbn [trace env]. rewrite Htrace.
    rewrite <- !app_assoc. reflexivity.
  - apply Forall_app. split; assumption.
Qed.

Lemma for_of_cons {A : Type} (body : A -> M Env unit) x rest (w w1 : World Env) :
  body x w = (Ok tt, w1) ->
  for_of (x :: rest) body w = for_of rest body w1.
Proof. intros Hbody. simpl. unfold bind. now rewrite Hbody. Qed.

(** The loop of the console report. *)
Lemma console_loop issues :
  forall w : World Env,
  exists events w',
    for_of issues (SonarReviewer.run_body cfg) w = (Ok tt, w')
    /\ trace w' = (trace w ++ events)%list
    /\ in_sequence (SonarReviewer.chat_request cfg) issue_lines issues events.
Proof.
  induction issues as [| issue rest IH]; intros w.
  - exists [], w. repeat split; [now rewrite app_nil_r | constructor].
  - destruct (console_run_body_events issue w)
      as (gptComment & enrich & w1 & Hbody & Htrace1 & Henrich).
    destruct (IH w1) as (later & w' & Hrest & Htrace & Hlater).
    exists (issue_lines issue
            ++ EChat (SonarReviewer.chat_request cfg issue) :: enrich
            ++ review_lines gptComment ++ later)%list, w'.
    split; [rewrite (for_of_cons _ _ _ _ _ Hbody); exact Hrest |]. split.
    + rewrite Htrace, Htrace1. rewrite <- !app_assoc. simpl.
      rewrite <- !app_assoc. reflexivity.
    + constructor; try assumption; [| discriminate].
      repeat constructor.
Qed.

(** The loop of the review comments. *)
Lemma review_loop issues :
  forall w : World Env,
  exists events w',
    for_of issues (Reviewer.run_body cfg) w = (Ok tt, w')
    /\ trace w' = (trace w ++ events)%list
    /\ in_sequence Reviewer.chat_request no_lead issues events.
Proof.
  induction issues as [| issue rest IH]; intros w.
  - exists [], w. repeat split; [now rewrite app_nil_r | constructor].
  - destruct (review_run_body_events Env services cfg issue w)
      as (gptComment & enrich & failure & env2 & Hbody & Henrich & Hfailure).
    match type of Hbody with _ = (_, ?w1) =>
      destruct (IH w1) as (later & w' & Hrest & Htrace & Hlater)
    end.
    exists (no_lead issue
            ++ EChat (Reviewer.chat_request issue) :: enrich
            ++ ([ELog ("💬 " ++ gptComment);
                 EComment (Reviewer.comment_args cfg gptComment
                             (Reviewer.path_of issue) (line issue))] ++ failure)
            ++ later)%list, w'.
    split; [rewrite (for_of_cons _ _ _ _ _ Hbody); exact Hrest |]. split.
    + rewrite Htrace. simpl. rewrite <- !app_assoc. simpl.
      rewrite <- !app_assoc. reflexivity.
    + constructor; try assumption; [| | discriminate].
      * destruct Henrich as [-> | [err ->]]; repeat constructor.
      * destruct Hfailure as [-> | [err ->]]; repeat constructor.
Qed.

End Order.
End OrderFacts.

(** C8, as stated, fails for the console report: on [Scripted.helpful] the
    lines that describe the one issue are printed before its chat request
    is made, so its events do not open with its enrichment. *)
Lemma console_report_prints_before_enrichment :
  ~ Observe.enriched_before_published
      (SonarReviewer.chat_request Scripted.cfg)
      (SonarReviewer.run_body Scripted.cfg)
      [Scripted.sample] (Scripted.start Scripted.helpful).
Proof.
  intros (events & w' & Hrun & Htrace & Hsequence).
  vm_compute in Hrun. injection Hrun as <-.
  simpl in Htrace. subst events.
  inversion Hsequence.
Qed.

(** C8, amended: [run] handles the issues one after the other in the order
    of the fetch, and all of them.  In the review-comment variant the events
    of an issue are its enrichment, from its chat request on, and then its
    publication.  In the console report the lines that describe the issue
    come first, then its enrichment, then the lines of its review: what is
    printed after the enrichment is the review alone. *)
Theorem issues_are_handled_in_order :
  forall (Env : Type) (services : Services Env) (cfg : Config) (w : World Env)
         (issues : list Issue),
    (forall w1,
        Reviewer.fetchSonarIssues cfg w = (Ok issues, w1) ->
        exists events w',
          Reviewer.run cfg w = (Ok tt, w')
          /\ trace w' = (trace w1 ++ events)%list
          /\ Observe.in_sequence Reviewer.chat_request Observe.no_lead issues events)
    /\ (forall w1,
          issues <> [] ->
          SonarReviewer.fetchSonarIssues cfg
            (Observe.extend w [ELog "🔍 Fetching SonarQube issues..."])
          = (Ok issues, w1) ->
          exists events w',
            SonarReviewer.run cfg w = (Ok tt, w')
            /\ trace w'
               = (trace w1
                  ++ [ELog ("📊 Found " ++ Js.of_Z (Z.of_nat (length issues))
                            ++ " issues in SonarQube");
                      ELog (Js.nl ++ "🤖 Enhancing issues with GPT..." ++ Js.nl)]
                  ++ events
                  ++ [ELog (Js.repeat "=" 80);
                      ELog ("🎉 Review complete! Processed "
                            ++ Js.of_Z (Z.of_nat (length issues)) ++ " issues.")])%list
            /\ Observe.in_sequence (SonarReviewer.chat_request cfg)
                 Observe.issue_lines issues events).
Proof.
  intros Env services cfg w issues. split.
  - intros w1 Hfetch.
    destruct (OrderFacts.review_loop cfg issues w1)
      as (events & w' & Hloop & Htrace & Hsequence).
    exists events, w'. split; [| split; assumption].
    unfold Reviewer.run, bind. rewrite Hfetch. exact Hloop.
  - intros w1 Hsome Hfetch.
    match goal with
    | |- exists events w', _ /\ trace w' = (trace w1 ++ ?before ++ _ ++ _)%list /\ _ =>
        destruct (OrderFacts.console_loop cfg issues (Observe.extend w1 before))
          as (events & w2 & Hloop & Htrace & Hsequence)
    end.
    exists events,
      (Observe.extend w2
         [ELog (Js.repeat "=" 80);
          ELog ("🎉 Review complete! Processed "
                ++ Js.of_Z (Z.of_nat (length issues)) ++ " issues.")]).
    split; [| split; [| exact Hsequence]].
    + unfold SonarReviewer.run, bind at 1. unfold console_log at 1, emit.
      fold (Observe.extend w [ELog "🔍 Fetching SonarQube issues..."]).
      unfold bind at 1. rewrite Hfetch.
      destruct issues as [| issue rest]; [contradiction |].
      cbn [length Nat.eqb].
      unfold bind at 1. unfold console_log at 1, emit.
      unfold bind at 1. unfold console_log at 1, emit.
      unfold bind at 1.
      match goal with
      | |- context [for_of _ _ ?w0] =>
          replace w0 with
            (Observe.extend w1
               [ELog ("📊 Found " ++ Js.of_Z (Z.of_nat (length (issue :: rest)))
                      ++ " issues in SonarQube");
                ELog (Js.nl ++ "🤖 Enhancing issues with GPT..." ++ Js.nl)])
            by (unfold Observe.extend; cbn [env trace];
                now rewrite <- app_assoc)
      end.
      rewrite Hloop. unfold bind, console_log, emit, Observe.extend.
      cbn [env trace]. now rewrite <- app_assoc.
    + unfold Observe.extend at 1. cbn [env trace]. rewrite Htrace. unfold Observe.extend. cbn [env trace].
      rewrite <- !app_assoc. reflexivity.
Qed.

Lemma issues_are_handled_in_order_witness :
  exists events w',
    Reviewer.run Scripted.cfg (Scripted.start Scripted.helpful) = (Ok tt, w')
    /\ trace w'
       = (EFetch (search_url Scripted.cfg) (authorization Scripted.cfg) :: events)
    /\ Observe.in_sequence Reviewer.chat_request Observe.no_lead
         [Scripted.sample] events.
Proof.
  exact (proj1 (issues_are_handled_in_order Scripted.Script Scripted.services
                  Scripted.cfg (Scripted.start Scripted.helpful) [Scripted.sample])
           _ eq_refl).
Defined.

(** ** The path of an issue *)

Module PathFacts.
Import Observe.

Lemma after_first_colon_free s :
  free_of ":" s -> after_first_colon s = None.
Proof.
  induction s as [| c s IH]; simpl; [reflexivity |].
  intros [Hc Hs]. apply Ascii.eqb_neq in Hc. now rewrite Hc, IH.
Qed.

Lemma after_first_colon_app key rest :
  free_of ":" key -> after_first_colon (key ++ String ":" rest) = Some rest.
Proof.
  induction key as [| c key IH]; simpl; [reflexivity |].
  intros [Hc Hkey]. apply Ascii.eqb_neq in Hc. now rewrite Hc, IH.
Qed.

(** A component without colon: the console report shows it whole, as
    specified, and the review comment has no path. *)
Lemma path_without_colon issue :
  free_of ":" (component issue) ->
  SonarReviewer.file_of issue = specified_path (component issue)
  /\ specified_path (component issue) = component issue
  /\ Reviewer.path_of issue = None.
Proof.
  intros Hfree. unfold SonarReviewer.file_of, Reviewer.path_of, specified_path.
  rewrite (JsFacts.split_free _ _ Hfree), (after_first_colon_free _ Hfree).
  repeat split.
Qed.

(** A component with one colon and something after it: both variants take
    what follows the colon, as specified. *)
Lemma path_with_one_colon issue key file :
  component issue = key ++ String ":" file ->
  free_of ":" key -> free_of ":" file -> file <> EmptyString ->
  SonarReviewer.file_of issue = file
  /\ Reviewer.path_of issue = Some file
  /\ specified_path (component issue) = file.
Proof.
  intros Hcomponent Hkey Hfile Hsome.
  unfold SonarReviewer.file_of, Reviewer.path_of, specified_path.
  rewrite Hcomponent, (JsFacts.split_app _ _ _ Hkey), (JsFacts.split_free _ _ Hfile),
    (after_first_colon_app _ _ Hkey).
  simpl. destruct file; [contradiction | repeat split].
Qed.

(** In general the review comment takes the piece between the first colon
    and the second. *)
Lemma path_is_second_piece issue key file rest :
  component issue = key ++ String ":" (file ++ String ":" rest) ->
  free_of ":" key -> free_of ":" file ->
  Reviewer.path_of issue = Some file
  /\ specified_path (component issue) = file ++ String ":" rest.
Proof.
  intros Hcomponent Hkey Hfile. unfold Reviewer.path_of, specified_path.
  rewrite Hcomponent, (JsFacts.split_app _ _ _ Hkey), (JsFacts.split_app _ _ _ Hfile),
    (after_first_colon_app _ _ Hkey).
  split; reflexivity.
Qed.

End PathFacts.

(** C1: on the two components the specification gives, the console report
    shows the specified path.  On a component with a second colon both
    variants stop at that colon, where the specified path runs to the end;
    and on a component without colon the review comment has no path at all,
    where the console report falls back on the component. *)
Theorem path_stops_at_second_colon :
  SonarReviewer.file_of (Scripted.issue_on "myproj:src/a/b.ts" Js.Undefined) = "src/a/b.ts"
  /\ Reviewer.path_of (Scripted.issue_on "myproj:src/a/b.ts" Js.Undefined) = Some "src/a/b.ts"
  /\ SonarReviewer.file_of (Scripted.issue_on "myproj" Js.Undefined) = "myproj"
  /\ Observe.specified_path "myproj" = "myproj"
  /\ Reviewer.path_of (Scripted.issue_on "myproj" Js.Undefined) = None
  /\ Observe.specified_path "myproj:src/a:b.ts" = "src/a:b.ts"
  /\ SonarReviewer.file_of (Scripted.issue_on "myproj:src/a:b.ts" Js.Undefined) = "src/a"
  /\ Reviewer.path_of (Scripted.issue_on "myproj:src/a:b.ts" Js.Undefined) = Some "src/a".
Proof. repeat split. Qed.

(** ** Further facts on the retry wrapper *)

(** With [retries = 2], a third failure is thrown even when [isConn]
    recognises it: after the call, two delays and two further calls. *)
Lemma withRetry_gives_up_after_third_failure :
  forall (Env A : Type) (ev : Event) (service : Env -> Outcome A * Env)
         (baseDelay : Z) (e0 e1 e2 e3 : Env) (err1 err2 err3 : Js.thrown)
         (before : list Event),
    service e0 = (Throw err1, e1) -> SonarReviewer.isConn err1 = true ->
    service e1 = (Throw err2, e2) -> SonarReviewer.isConn err2 = true ->
    service e2 = (Throw err3, e3) ->
    SonarReviewer.withRetry (call ev service)
      {| SonarReviewer.retries := 2; SonarReviewer.baseDelayMs := baseDelay |}
      {| env := e0; trace := before |}
    = (Throw err3,
       {| env := e3;
          trace := before ++ [ev; ESleep (baseDelay * 2 ^ 0);
                              ev; ESleep (baseDelay * 2 ^ 1);
                              ev] |}).
Proof.
  intros Env A ev service baseDelay e0 e1 e2 e3 err1 err2 err3 before
         Hfirst Hconn1 Hsecond Hconn2 Hthird.
  unfold SonarReviewer.withRetry.
  erewrite RetryFacts.withRetry_loop_again;
    [| simpl; lia | unfold call; simpl; rewrite Hfirst; reflexivity | exact Hconn1].
  erewrite RetryFacts.withRetry_loop_again;
    [| simpl; lia | unfold call; simpl; rewrite Hsecond; reflexivity | exact Hconn2].
  rewrite RetryFacts.withRetry_loop_unfold. unfold call. simpl. rewrite Hthird.
  rewrite orb_true_r. rewrite <- !app_assoc. reflexivity.
Qed.

Example split_examples :
  Js.split ":" "a::b" = ["a"; EmptyString; "b"]%string
  /\ Js.split ":" "a:" = ["a"; EmptyString]%string
  /\ Js.split ":" EmptyString = [EmptyString]
  /\ Js.split "/" "octo/demo" = ["octo"; "demo"]%string.
Proof. repeat split. Qed.

Example base64_examples :
  Js.base64 "abc:" = "YWJjOg=="%string /\ Js.base64 "ab" = "YWI="%string
  /\ Js.base64 "Man" = "TWFu"%string.
Proof. repeat split. Qed.

Example trim_examples :
  Js.trim "  a b  " = "a b"%string
  /\ Js.trim (Js.nl ++ "x" ++ Js.nl) = "x"%string
  /\ Js.trim "   " = EmptyString.
Proof. repeat split. Qed.

(** * Further properties of the code *)

(** ** [withRetry] in general *)

Module RetryReplay.
Section Replay.
Import SonarReviewer Observe Measure.
Context {Env A : Type} (ev : Event) (service : Env -> Outcome A * Env)
        (options : RetryOptions).

(** The loop from [attempt] on stops at the first call that succeeds or
    fails in a way [isConn] does not recognise, and at the last attempt
    anyway. *)
Lemma withRetry_loop_replay (k : nat) :
  forall attempt lastErr e before,
    attempt <= retries options ->
    Z.to_nat (retries options - attempt) = k ->
    exists n,
      attempt + Z.of_nat n <= retries options
      /\ withRetry_loop (call ev service) options attempt lastErr
           {| env := e; trace := before |}
         = (fst (replay service e n),
            {| env := snd (replay service e n);
               trace := before
                        ++ ev :: further_attempts ev (baseDelayMs options) attempt n |})
      /\ (forall j, (j < n)%nat ->
            exists err, fst (replay service e j) = Throw err /\ isConn err = true)
      /\ (attempt + Z.of_nat n < retries options ->
          forall err, fst (replay service e n) = Throw err -> isConn err = false).
Proof.
  induction k as [| k IH]; intros attempt lastErr e before Hle Hk;
    rewrite RetryFacts.withRetry_loop_unfold;
    (replace (attempt <=? retries options) with true by (symmetry; apply Z.leb_le; lia));
    unfold call at 1; cbn [env trace];
    destruct (service e) as [[result | err] e1] eqn:Hcall.
  - exists O. simpl. rewrite Hcall.
    split; [lia | split; [reflexivity | split; [intros j Hj; lia | discriminate]]].
  - exists O. simpl. rewrite Hcall.
    replace (attempt =? retries options) with true by (symmetry; apply Z.eqb_eq; lia).
    rewrite orb_true_r.
    split; [lia | split; [reflexivity | split; [intros j Hj; lia | lia]]].
  - exists O. simpl. rewrite Hcall.
    split; [lia | split; [reflexivity | split; [intros j Hj; lia | discriminate]]].
  - destruct (negb (isConn err) || (attempt =? retries options)) eqn:Hstop.
    + exists O. simpl. rewrite Hcall.
      split; [lia | split; [reflexivity | split; [intros j Hj; lia |]]].
      intros Hlt err' [= <-].
      apply orb_true_iff in Hstop as [Hstop | Hstop].
      * now apply negb_true_iff in Hstop.
      * apply Z.eqb_eq in Hstop. lia.
    + apply orb_false_iff in Hstop as [Hconn Hneq].
      apply negb_false_iff in Hconn. apply Z.eqb_neq in Hneq.
      destruct (IH (attempt + 1) err e1
                  ((before ++ [ev]) ++ [ESleep (baseDelayMs options * 2 ^ attempt)])%list)
        as (n & Hn & Hloop & Hbefore & Hlast); [lia | lia |].
      exists (S n). split; [lia |]. split; [| split].
      * unfold sleep, emit. cbn [env trace snd]. rewrite Hloop.
        simpl. rewrite Hcall. simpl. rewrite <- !app_assoc. reflexivity.
      * intros [| j] Hj; simpl; rewrite Hcall; [now exists err |].
        apply Hbefore. lia.
      * intros Hlt err'. simpl. rewrite Hcall. simpl.
        apply Hlast. lia.
Qed.

End Replay.
End RetryReplay.

(** X1: for a number of retries that is not negative, [withRetry] calls the
    service again and again and stops at the first call that succeeds, or
    that fails in a way [isConn] does not recognise, or at call number
    [retries] at the latest.  Its outcome is the outcome of that last call,
    the calls before it have all failed in a recognised way, and the call
    number [k] comes after a delay of [baseDelayMs * 2^(k-1)]. *)
Theorem withRetry_returns_its_last_call :
  forall (Env A : Type) (ev : Event) (service : Env -> Outcome A * Env)
         (options : SonarReviewer.RetryOptions) (e : Env) (before : list Event),
    0 <= SonarReviewer.retries options ->
    exists n,
      Z.of_nat n <= SonarReviewer.retries options
      /\ SonarReviewer.withRetry (call ev service) options {| env := e; trace := before |}
         = (fst (Measure.replay service e n),
            {| env := snd (Measure.replay service e n);
               trace := before
                        ++ ev :: Observe.further_attempts ev
                                   (SonarReviewer.baseDelayMs options) 0 n |})
      /\ (forall j, (j < n)%nat ->
            exists err,
              fst (Measure.replay service e j) = Throw err
              /\ SonarReviewer.isConn err = true)
      /\ (Z.of_nat n < SonarReviewer.retries options ->
          forall err,
            fst (Measure.replay service e n) = Throw err ->
            SonarReviewer.isConn err = false).
Proof.
  intros Env A ev service options e before Hbudget.
  destruct (RetryReplay.withRetry_loop_replay ev service options
              (Z.to_nat (SonarReviewer.retries options - 0)) 0 Js.ThrownUndefined
              e before Hbudget eq_refl) as (n & Hn & Hloop & Hbefore & Hlast).
  exists n. split; [lia |]. split; [exact Hloop |]. split; [exact Hbefore |].
  intros Hlt. apply Hlast. lia.
Qed.

Lemma withRetry_returns_its_last_call_witness :
  exists n,
    Z.of_nat n <= 2
    /\ SonarReviewer.withRetry (call (ELog "attempt") Scripted.answer_chat)
         SonarReviewer.default_options (Scripted.start Scripted.unreachable)
       = (fst (Measure.replay Scripted.answer_chat Scripted.unreachable n),
          {| env := snd (Measure.replay Scripted.answer_chat Scripted.unreachable n);
             trace := [] ++ ELog "attempt"
                         :: Observe.further_attempts (ELog "attempt") 500 0 n |})
    /\ (forall j, (j < n)%nat ->
          exists err,
            fst (Measure.replay Scripted.answer_chat Scripted.unreachable j) = Throw err
            /\ SonarReviewer.isConn err = true)
    /\ (Z.of_nat n < 2 ->
        forall err,
          fst (Measure.replay Scripted.answer_chat Scripted.unreachable n) = Throw err ->
          SonarReviewer.isConn err = false).
Proof.
  apply (withRetry_returns_its_last_call Scripted.Script ChatResponse
           (ELog "attempt") Scripted.answer_chat SonarReviewer.default_options
           Scripted.unreachable []).
  simpl. lia.
Defined.

(** X2: with a negative number of retries [withRetry] does not run the
    operation at all: it throws [undefined], the initial value of
    [lastErr], and leaves the world as it was. *)
Theorem withRetry_with_negative_retries_runs_nothing :
  forall (Env A : Type) (fn : M Env A) (options : SonarReviewer.RetryOptions)
         (w : World Env),
    SonarReviewer.retries options < 0 ->
    SonarReviewer.withRetry fn options w = (Throw Js.ThrownUndefined, w).
Proof.
  intros Env A fn options w Hnegative.
  unfold SonarReviewer.withRetry. rewrite RetryFacts.withRetry_loop_unfold.
  destruct (0 <=? SonarReviewer.retries options) eqn:Hle; [| reflexivity].
  apply Z.leb_le in Hle. lia.
Qed.

Lemma withRetry_with_negative_retries_runs_nothing_witness :
  SonarReviewer.withRetry (call (ELog "attempt") Scripted.answer_chat)
    {| SonarReviewer.retries := -1; SonarReviewer.baseDelayMs := 500 |}
    (Scripted.start Scripted.helpful)
  = (Throw Js.ThrownUndefined, Scripted.start Scripted.helpful).
Proof.
  apply (withRetry_with_negative_retries_runs_nothing Scripted.Script ChatResponse).
  simpl. lia.
Defined.

Module MeasureFacts.
Import Observe Measure.

Lemma total_delay_app first second :
  total_delay (first ++ second) = total_delay first + total_delay second.
Proof.
  induction first as [| ev first IH]; simpl; [reflexivity |].
  destruct ev; rewrite IH; lia.
Qed.

Lemma calls_in_app first second :
  calls_in (first ++ second) = (calls_in first ++ calls_in second)%list.
Proof. apply filter_app. Qed.

Lemma chats_in_app first second :
  chats_in (first ++ second) = (chats_in first ++ chats_in second)%list.
Proof. apply flat_map_app. Qed.

Lemma comments_in_app first second :
  comments_in (first ++ second) = (comments_in first ++ comments_in second)%list.
Proof. apply flat_map_app. Qed.

Lemma logs_in_app first second :
  logs_in (first ++ second) = (logs_in first ++ logs_in second)%list.
Proof. apply flat_map_app. Qed.

Lemma total_delay_call ev rest :
  is_sleep ev = false -> total_delay (ev :: rest) = total_delay rest.
Proof. destruct ev; simpl; congruence. Qed.

(** The delays of [n] further attempts double from one to the next. *)
Lemma total_delay_further_attempts ev base attempt n :
  is_sleep ev = false -> 0 <= attempt ->
  total_delay (further_attempts ev base attempt n)
  = base * (2 ^ (attempt + Z.of_nat n) - 2 ^ attempt).
Proof.
  intros Hev. revert attempt. induction n as [| n IH]; intros attempt Hattempt.
  - simpl. replace (attempt + 0) with attempt by lia. lia.
  - cbn [further_attempts].
    change (total_delay (ESleep (base * 2 ^ attempt)
                           :: ev :: further_attempts ev base (attempt + 1) n))
      with (base * 2 ^ attempt
            + total_delay (ev :: further_attempts ev base (attempt + 1) n)).
    rewrite (total_delay_call _ _ Hev), IH by lia.
    replace (attempt + 1 + Z.of_nat n) with (attempt + Z.of_nat (S n)) by lia.
    rewrite (Z.pow_add_r 2 attempt 1) by lia. lia.
Qed.

Lemma calls_in_further_attempts ev base attempt n :
  is_sleep ev = false ->
  calls_in (further_attempts ev base attempt n) = repeat ev n.
Proof.
  intros Hev. revert attempt. induction n as [| n IH]; intros attempt; simpl.
  - reflexivity.
  - unfold calls_in in *. simpl. rewrite Hev. simpl. now rewrite IH.
Qed.

Lemma chats_in_further_attempts req base attempt n :
  chats_in (further_attempts (EChat req) base attempt n) = repeat req n.
Proof.
  revert attempt. induction n as [| n IH]; intros attempt; simpl.
  - reflexivity.
  - now rewrite IH.
Qed.

End MeasureFacts.

(** X3: for a number of retries and a base delay that are not negative,
    [withRetry] around a service call makes at least one call and at most
    [retries + 1], and asks in all for a delay of at most
    [baseDelayMs * (2^retries - 1)] milliseconds. *)
Theorem withRetry_calls_and_delay_are_bounded :
  forall (Env A : Type) (ev : Event) (service : Env -> Outcome A * Env)
         (options : SonarReviewer.RetryOptions) (w : World Env),
    0 <= SonarReviewer.retries options ->
    0 <= SonarReviewer.baseDelayMs options ->
    Measure.is_sleep ev = false ->
    exists added,
      trace (snd (SonarReviewer.withRetry (call ev service) options w))
      = (trace w ++ added)%list
      /\ (1 <= length (Measure.calls_in added))%nat
      /\ Z.of_nat (length (Measure.calls_in added)) <= SonarReviewer.retries options + 1
      /\ 0 <= Measure.total_delay added
      /\ Measure.total_delay added
         <= SonarReviewer.baseDelayMs options * (2 ^ SonarReviewer.retries options - 1).
Proof.
  intros Env A ev service options w Hbudget Hbase Hev.
  destruct (RetryTrace.withRetry_trace ev service options w Hbudget)
    as (n & Hn & Htrace).
  exists (ev :: Observe.further_attempts ev (SonarReviewer.baseDelayMs options) 0 n).
  split; [exact Htrace |].
  assert (Hcalls : Measure.calls_in
                     (ev :: Observe.further_attempts ev
                              (SonarReviewer.baseDelayMs options) 0 n)
                   = ev :: repeat ev n).
  { unfold Measure.calls_in. simpl. rewrite Hev. simpl. f_equal.
    now apply MeasureFacts.calls_in_further_attempts. }
  assert (Hdelay : Measure.total_delay
                     (ev :: Observe.further_attempts ev
                              (SonarReviewer.baseDelayMs options) 0 n)
                   = SonarReviewer.baseDelayMs options * (2 ^ Z.of_nat n - 1)).
  { transitivity (Measure.total_delay
                    (Observe.further_attempts ev (SonarReviewer.baseDelayMs options) 0 n)).
    - now apply MeasureFacts.total_delay_call.
    - rewrite MeasureFacts.total_delay_further_attempts by (assumption || lia).
      simpl. reflexivity. }
  rewrite Hcalls, Hdelay. simpl. rewrite repeat_length.
  assert (Hone : 1 <= 2 ^ Z.of_nat n) by
    (change 1 with (2 ^ 0); apply Z.pow_le_mono_r; lia).
  assert (Hmono : 2 ^ Z.of_nat n <= 2 ^ SonarReviewer.retries options) by
    (apply Z.pow_le_mono_r; lia).
  repeat split; try lia; try nia.
Qed.

Lemma withRetry_calls_and_delay_are_bounded_witness :
  exists added,
    trace (snd (SonarReviewer.withRetry (call (ELog "attempt") Scripted.answer_chat)
                  SonarReviewer.default_options (Scripted.start Scripted.unreachable)))
    = ([] ++ added)%list
    /\ (1 <= length (Measure.calls_in added))%nat
    /\ Z.of_nat (length (Measure.calls_in added)) <= 2 + 1
    /\ 0 <= Measure.total_delay added
    /\ Measure.total_delay added <= 500 * (2 ^ 2 - 1).
Proof.
  apply (withRetry_calls_and_delay_are_bounded Scripted.Script ChatResponse
           (ELog "attempt") Scripted.answer_chat SonarReviewer.default_options
           (Scripted.start Scripted.unreachable));
    [simpl; lia | simpl; lia | reflexivity].
Defined.

(** X4: [isConn] recognises a thrown value exactly when the text of its
    [message] holds one of the four markers somewhere, in that spelling.  A
    thrown value with no [message], [undefined] for one, is not recognised. *)
Theorem isConn_looks_for_four_markers :
  forall err : Js.thrown,
    (SonarReviewer.isConn err = true <->
     exists marker pre post,
       In marker ["APIConnectionError"; "fetch failed"; "ENOTFOUND"; "ETIMEDOUT"]
       /\ Js.message_text err = pre ++ marker ++ post)
    /\ (Js.message_text err = EmptyString -> SonarReviewer.isConn err = false).
Proof.
  intros err. split; [apply IsConnFacts.isConn_spec |].
  unfold SonarReviewer.isConn. now intros ->.
Qed.

Lemma isConn_looks_for_four_markers_witness :
  SonarReviewer.isConn (Js.Error "connect ETIMEDOUT 10.0.0.1:443") = true
  /\ SonarReviewer.isConn Js.ThrownUndefined = false.
Proof.
  split.
  - apply (proj1 (isConn_looks_for_four_markers
                    (Js.Error "connect ETIMEDOUT 10.0.0.1:443"))).
    exists "ETIMEDOUT", "connect ", " 10.0.0.1:443". split; [simpl; auto | reflexivity].
  - exact (proj2 (isConn_looks_for_four_markers Js.ThrownUndefined) eq_refl).
Defined.

(** ** [enhanceWithGPT] *)

(** X5: a chat response that has no choice, or whose first choice has
    [null] for content, makes [enhanceWithGPT] log the [TypeError] and
    return the [message] of the issue, in both variants; the call is not
    made again. *)
Theorem enhanceWithGPT_falls_back_on_a_malformed_response :
  forall (Env : Type) (services : Services Env) (cfg : Config) (issue : Issue)
         (w : World Env) (response : ChatResponse),
    (choices response = []
     \/ exists others, choices response = {| message_content := None |} :: others) ->
    exists err,
      first_choice_text response = Throw err
      /\ (forall w1,
            Observe.console_call cfg issue w = (Ok response, w1) ->
            SonarReviewer.enhanceWithGPT cfg issue w
            = (Ok (message issue), Observe.extend w1 [EError "GPT Error:" err]))
      /\ (forall env1,
            chat_completions_create (Reviewer.chat_request issue) (env w)
            = (Ok response, env1) ->
            Reviewer.enhanceWithGPT issue w
            = (Ok (message issue),
               {| env := env1;
                  trace := trace w ++ [EChat (Reviewer.chat_request issue);
                                       EError "GPT Error:" err] |})).
Proof.
  intros Env services cfg issue w response Hmalformed.
  assert (Hthrow : exists err, first_choice_text response = Throw err).
  { unfold first_choice_text.
    destruct Hmalformed as [-> | [others ->]]; simpl; eauto. }
  destruct Hthrow as [err Hthrow]. exists err. split; [exact Hthrow |]. split.
  - intros w1 Hcall.
    rewrite EnhanceFacts.console_enhance_settled, Hcall. simpl. now rewrite Hthrow.
  - intros env1 Hcall.
    rewrite EnhanceFacts.review_enhance_settled.
    unfold Observe.review_call, call. rewrite Hcall. simpl. rewrite Hthrow.
    unfold Observe.extend. simpl. now rewrite <- app_assoc.
Qed.

Lemma enhanceWithGPT_falls_back_on_a_malformed_response_witness :
  exists err,
    first_choice_text {| choices := [] |} = Throw err
    /\ Reviewer.enhanceWithGPT Scripted.sample
         (Scripted.start {| Scripted.http := Scripted.found [Scripted.sample];
                            Scripted.chats := [Ok {| choices := [] |}];
                            Scripted.comments := [] |})
       = (Ok "Remove this unused variable.",
          {| env := {| Scripted.http := Scripted.found [Scripted.sample];
                       Scripted.chats := [];
                       Scripted.comments := [] |};
             trace := [EChat (Reviewer.chat_request Scripted.sample);
                       EError "GPT Error:" err] |}).
Proof.
  destruct (enhanceWithGPT_falls_back_on_a_malformed_response Scripted.Script
              Scripted.services Scripted.cfg Scripted.sample
              (Scripted.start {| Scripted.http := Scripted.found [Scripted.sample];
                                 Scripted.chats := [Ok {| choices := [] |}];
                                 Scripted.comments := [] |})
              {| choices := [] |} (or_introl eq_refl))
    as (err & Hthrow & _ & Hreview).
  exists err. split; [exact Hthrow |]. exact (Hreview _ eq_refl).
Defined.

(** X6: in the console report [enhanceWithGPT] sends the chat request of
    the issue at least once and at most three times, always the same, with
    a delay of 500 ms before the second and of 1000 ms before the third,
    so of 1500 ms at most in all.  It returns normally; when it has logged
    a failure, what it returns is the [message] of the issue. *)
Theorem enhanceWithGPT_tries_at_most_three_times :
  forall (Env : Type) (services : Services Env) (cfg : Config) (issue : Issue)
         (w : World Env),
  exists (n : nat) (failure : list Event) (text : string) (w' : World Env),
    SonarReviewer.enhanceWithGPT cfg issue w = (Ok text, w')
    /\ (n <= 2)%nat
    /\ trace w'
       = (trace w
          ++ EChat (SonarReviewer.chat_request cfg issue)
             :: Observe.further_attempts (EChat (SonarReviewer.chat_request cfg issue))
                  500 0 n
          ++ failure)%list
    /\ (failure = []
        \/ exists err, failure = [EError "GPT Error:" err] /\ text = message issue)
    /\ Observe.chats_in
         (EChat (SonarReviewer.chat_request cfg issue)
          :: Observe.further_attempts (EChat (SonarReviewer.chat_request cfg issue))
               500 0 n ++ failure)
       = repeat (SonarReviewer.chat_request cfg issue) (S n)
    /\ Measure.total_delay
         (EChat (SonarReviewer.chat_request cfg issue)
          :: Observe.further_attempts (EChat (SonarReviewer.chat_request cfg issue))
               500 0 n ++ failure)
       <= 1500.
Proof.
  intros Env services cfg issue w.
  destruct (RetryTrace.withRetry_trace
              (EChat (SonarReviewer.chat_request cfg issue))
              (chat_completions_create (SonarReviewer.chat_request cfg issue))
              SonarReviewer.default_options w)
    as (n & Hn & Htrace); [simpl; lia |].
  fold (Observe.console_call cfg issue) in Htrace. simpl in Hn, Htrace.
  rewrite EnhanceFacts.console_enhance_settled.
  destruct (Observe.console_call cfg issue w) as [answer w1]. simpl in Htrace.
  assert (Hsettled :
            exists text failure,
              Observe.settled issue (answer, w1) = (Ok text, Observe.extend w1 failure)
              /\ (failure = []
                  \/ exists err, failure = [EError "GPT Error:" err]
                                 /\ text = message issue)).
  { unfold Observe.settled.
    destruct answer as [response | err];
      [destruct (first_choice_text response) as [text | err] |].
    - exists text, []. split; [| now left].
      unfold Observe.extend. destruct w1. simpl. now rewrite app_nil_r.
    - exists (message issue), [EError "GPT Error:" err]. split; [reflexivity |].
      right. now exists err.
    - exists (message issue), [EError "GPT Error:" err]. split; [reflexivity |].
      right. now exists err. }
  destruct Hsettled as (text & failure & -> & Hfailure).
  exists n, failure, text, (Observe.extend w1 failure).
  split; [reflexivity |]. split; [lia |]. split; [| split; [exact Hfailure |]].
  - unfold Observe.extend. cbn [trace]. rewrite Htrace.
    rewrite <- !app_assoc. reflexivity.
  - assert (Hnone : Observe.chats_in failure = [] /\ Measure.total_delay failure = 0)
      by (destruct Hfailure as [-> | (err & -> & _)]; split; reflexivity).
    destruct Hnone as [Hchats Hdelay]. split.
    + change (Observe.chats_in (EChat ?req :: ?rest))
        with (req :: Observe.chats_in rest).
      rewrite MeasureFacts.chats_in_app, MeasureFacts.chats_in_further_attempts, Hchats.
      now rewrite app_nil_r.
    + change (Measure.total_delay (EChat ?req :: ?rest))
        with (Measure.total_delay rest).
      rewrite MeasureFacts.total_delay_app, Hdelay,
        MeasureFacts.total_delay_further_attempts by (reflexivity || lia).
      assert (Hmono : 2 ^ (0 + Z.of_nat n) <= 2 ^ 2)
        by (apply Z.pow_le_mono_r; lia).
      change (2 ^ 2) with 4 in Hmono. change (2 ^ 0) with 1. lia.
Qed.

(** ** [postComment] and the run of [reviewer.js] *)

(** X7: [postComment] makes one request, at line 1 when the line it is
    given is falsy, and returns normally whatever the answer: a refusal is
    logged under [GitHub Comment Error:] and goes no further. *)
Theorem postComment_contains_a_refusal :
  forall (Env : Type) (services : Services Env) (cfg : Config)
         (body : string) (path : option string) (line : Js.value) (w : World Env),
    let args := Reviewer.comment_args cfg body path line in
    Reviewer.postComment cfg body path line w
    = (Ok tt,
       {| env := snd (pulls_createReviewComment args (env w));
          trace := trace w
                   ++ EComment args
                      :: match fst (pulls_createReviewComment args (env w)) with
                         | Ok _ => []
                         | Throw err => [EError "GitHub Comment Error:" err]
                         end |})
    /\ comment_line args = (if Js.truthy line then line else Js.Num 1).
Proof.
  intros Env services cfg body path line w args. split; [| reflexivity].
  unfold Reviewer.postComment, try_catch, call. fold args.
  destruct (pulls_createReviewComment args (env w)) as [[[] | err] env1]; simpl.
  - reflexivity.
  - unfold console_error, emit. simpl. now rewrite <- app_assoc.
Qed.

Module ReviewRunFacts.
Section Run.
Import Observe Measure.
Context {Env : Type} {services : Services Env} (cfg : Config).

(** What the loop of [reviewer.js] asks of the outside, issue by issue. *)
Lemma review_loop_requests issues :
  forall w : World Env,
  exists events w',
    for_of issues (Reviewer.run_body cfg) w = (Ok tt, w')
    /\ trace w' = (trace w ++ events)%list
    /\ chats_in events = map Reviewer.chat_request issues
    /\ map path (comments_in events) = map Reviewer.path_of issues
    /\ map comment_line (comments_in events)
       = map (fun issue => Js.or_else (line issue) (Js.Num 1)) issues
    /\ total_delay events = 0.
Proof.
  induction issues as [| issue rest IH]; intros w.
  - exists [], w. repeat split. simpl. now rewrite app_nil_r.
  - destruct (review_run_body_events Env services cfg issue w)
      as (gptComment & enrich & failure & env2 & Hbody & Henrich & Hfailure).
    match type of Hbody with _ = (_, ?w1) =>
      destruct (IH w1)
        as (later & w' & Hrest & Htrace & Hchats & Hpaths & Hlines & Hdelay)
    end.
    exists (((EChat (Reviewer.chat_request issue) :: enrich)
             ++ [ELog ("💬 " ++ gptComment);
                 EComment (Reviewer.comment_args cfg gptComment
                             (Reviewer.path_of issue) (line issue))]
             ++ failure) ++ later)%list, w'.
    split; [rewrite (OrderFacts.for_of_cons _ _ _ _ _ Hbody); exact Hrest |].
    split; [rewrite Htrace; cbn [trace]; now rewrite <- !app_assoc |].
    rewrite MeasureFacts.chats_in_app, MeasureFacts.comments_in_app,
      MeasureFacts.total_delay_app, !map_app, Hchats, Hpaths, Hlines, Hdelay.
    destruct Henrich as [-> | [err ->]], Hfailure as [-> | [err' ->]];
      repeat split; reflexivity.
Qed.

End Run.
End ReviewRunFacts.

(** X8: once the fetch has given its issues, [run] of [reviewer.js]
    returns normally whatever the chat and comment services answer.  It has
    then sent one chat request per issue and one comment request per issue,
    in the order of the fetch, each comment on the path and at the line of
    its issue (line 1 when the issue has none), and it has never waited. *)
Theorem review_run_sends_one_comment_per_issue :
  forall (Env : Type) (services : Services Env) (cfg : Config) (w w1 : World Env)
         (issues : list Issue),
    Reviewer.fetchSonarIssues cfg w = (Ok issues, w1) ->
    exists events w',
      Reviewer.run cfg w = (Ok tt, w')
      /\ trace w' = (trace w1 ++ events)%list
      /\ Observe.chats_in events = map Reviewer.chat_request issues
      /\ map path (Observe.comments_in events) = map Reviewer.path_of issues
      /\ map comment_line (Observe.comments_in events)
         = map (fun issue => Js.or_else (line issue) (Js.Num 1)) issues
      /\ Measure.total_delay events = 0.
Proof.
  intros Env services cfg w w1 issues Hfetch.
  destruct (ReviewRunFacts.review_loop_requests cfg issues w1)
    as (events & w' & Hloop & Hrest).
  exists events, w'. split; [| exact Hrest].
  unfold Reviewer.run, bind. rewrite Hfetch. exact Hloop.
Qed.

Lemma review_run_sends_one_comment_per_issue_witness :
  exists events w',
    Reviewer.run Scripted.cfg (Scripted.start Scripted.helpful) = (Ok tt, w')
    /\ trace w'
       = (EFetch (search_url Scripted.cfg) (authorization Scripted.cfg) :: events)
    /\ Observe.chats_in events = [Reviewer.chat_request Scripted.sample]
    /\ map path (Observe.comments_in events) = [Some "src/a/b.ts"]
    /\ map comment_line (Observe.comments_in events) = [Js.Num 12]
    /\ Measure.total_delay events = 0.
Proof.
  exact (review_run_sends_one_comment_per_issue Scripted.Script Scripted.services
           Scripted.cfg (Scripted.start Scripted.helpful) _ [Scripted.sample] eq_refl).
Defined.

(** ** The exit status *)

(** X9: when the fetch throws, [main] of either variant logs the failure
    under [Error:] and gives the exit status 1; nothing else has happened
    since the fetch, so no chat request and no comment request. *)
Theorem main_exits_with_1_when_the_fetch_fails :
  forall (Env : Type) (services : Services Env) (cfg : Config) (w : World Env)
         (err : Js.thrown),
    (forall w1,
        SonarReviewer.fetchSonarIssues cfg
          (Observe.extend w [ELog "🔍 Fetching SonarQube issues..."]) = (Throw err, w1) ->
        SonarReviewer.main cfg w = (Ok 1, Observe.extend w1 [EError "❌ Error:" err]))
    /\ (forall w1,
          Reviewer.fetchSonarIssues cfg w = (Throw err, w1) ->
          Reviewer.main cfg w = (Ok 1, Observe.extend w1 [EError "❌ Error:" err])).
Proof.
  intros Env services cfg w err. split; intros w1 Hfetch.
  - unfold SonarReviewer.main, try_catch, bind at 1, SonarReviewer.run, bind at 1.
    unfold console_log at 1, emit.
    fold (Observe.extend w [ELog "🔍 Fetching SonarQube issues..."]).
    unfold bind at 1. rewrite Hfetch. reflexivity.
  - unfold Reviewer.main, try_catch, bind at 1, Reviewer.run, bind.
    rewrite Hfetch. reflexivity.
Qed.

Lemma main_exits_with_1_when_the_fetch_fails_witness :
  Reviewer.main Scripted.cfg (Scripted.start Scripted.refused)
  = (Ok 1,
     {| env := Scripted.refused;
        trace := [EFetch (search_url Scripted.cfg) (authorization Scripted.cfg);
                  EError "❌ Error:" (Js.Error "SonarQube API error: Unauthorized")] |}).
Proof.
  exact (proj2 (main_exits_with_1_when_the_fetch_fails Scripted.Script
                  Scripted.services Scripted.cfg (Scripted.start Scripted.refused)
                  (Js.Error "SonarQube API error: Unauthorized"))
           _ eq_refl).
Defined.

(** X10: when the fetch gives its issues, [main] of either variant gives
    the exit status 0, whatever the chat and comment services answer: the
    failures met on the way are kept inside [enhanceWithGPT] and
    [postComment]. *)
Theorem main_exits_with_0_when_the_fetch_succeeds :
  forall (Env : Type) (services : Services Env) (cfg : Config) (w : World Env)
         (issues : list Issue),
    (forall w1,
        SonarReviewer.fetchSonarIssues cfg
          (Observe.extend w [ELog "🔍 Fetching SonarQube issues..."]) = (Ok issues, w1) ->
        fst (SonarReviewer.main cfg w) = Ok 0)
    /\ (forall w1,
          Reviewer.fetchSonarIssues cfg w = (Ok issues, w1) ->
          fst (Reviewer.main cfg w) = Ok 0).
Proof.
  intros Env services cfg w issues. split; intros w1 Hfetch.
  - assert (Hrun : exists w', SonarReviewer.run cfg w = (Ok tt, w')).
    { unfold SonarReviewer.run, bind at 1. unfold console_log at 1, emit.
      fold (Observe.extend w [ELog "🔍 Fetching SonarQube issues..."]).
      unfold bind at 1. rewrite Hfetch.
      unfold bind at 1. unfold console_log at 1, emit.
      destruct issues as [| issue rest]; cbn [length Nat.eqb].
      - eexists. reflexivity.
      - unfold bind at 1. unfold console_log at 1, emit.
        unfold bind at 1.
        match goal with
        | |- context [for_of _ _ ?w0] =>
            destruct (OrderFacts.console_loop cfg (issue :: rest) w0)
              as (events & w2 & Hloop & _)
        end.
        rewrite Hloop. eexists. reflexivity. }
    destruct Hrun as [w' Hrun].
    unfold SonarReviewer.main, try_catch, bind. now rewrite Hrun.
  - destruct (OrderFacts.review_loop cfg issues w1) as (events & w' & Hloop & _).
    unfold Reviewer.main, try_catch, bind at 1, Reviewer.run, bind.
    now rewrite Hfetch, Hloop.
Qed.

Lemma main_exits_with_0_when_the_fetch_succeeds_witness :
  fst (SonarReviewer.main Scripted.cfg
         (Scripted.start {| Scripted.http := Scripted.found [Scripted.sample];
                            Scripted.chats := [];
                            Scripted.comments := [] |})) = Ok 0.
Proof.
  exact (proj1 (main_exits_with_0_when_the_fetch_succeeds Scripted.Script
                  Scripted.services Scripted.cfg
                  (Scripted.start {| Scripted.http := Scripted.found [Scripted.sample];
                                     Scripted.chats := [];
                                     Scripted.comments := [] |})
                  [Scripted.sample])
           _ eq_refl).
Defined.

(** ** The run of [sonar-reviewer.js] *)

Module ConsoleRunFacts.
Section Run.
Import Observe Measure.
Context {Env : Type} {services : Services Env} (cfg : Config).

(** The enrichment of one issue in the console report, attempt by
    attempt. *)
Lemma console_enhance_attempts issue (w : World Env) :
  exists (n : nat) (failure : list Event) (text : string) (w' : World Env),
    SonarReviewer.enhanceWithGPT cfg issue w = (Ok text, w')
    /\ (n <= 2)%nat
    /\ trace w'
       = (trace w
          ++ (EChat (SonarReviewer.chat_request cfg issue)
              :: further_attempts (EChat (SonarReviewer.chat_request cfg issue)) 500 0 n)
          ++ failure)%list
    /\ (failure = [] \/ exists err, failure = [EError "GPT Error:" err]).
Proof.
  destruct (RetryTrace.withRetry_trace
              (EChat (SonarReviewer.chat_request cfg issue))
              (chat_completions_create (SonarReviewer.chat_request cfg issue))
              SonarReviewer.default_options w)
    as (n & Hn & Htrace); [simpl; lia |].
  fold (console_call cfg issue) in Htrace. simpl in Hn, Htrace.
  rewrite EnhanceFacts.console_enhance_settled.
  destruct (console_call cfg issue w) as [answer w1]. simpl in Htrace.
  exists n.
  unfold settled.
  destruct answer as [response | err];
    [destruct (first_choice_text response) as [text | err] |].
  - exists [], text, w1. rewrite app_nil_r.
    split; [reflexivity |]. split; [lia |]. split; [exact Htrace | now left].
  - exists [EError "GPT Error:" err], (message issue). eexists.
    split; [reflexivity |]. split; [lia |]. split; [| right; now exists err].
    unfold extend. cbn [trace]. rewrite Htrace, <- app_assoc. reflexivity.
  - exists [EError "GPT Error:" err], (message issue). eexists.
    split; [reflexivity |]. split; [lia |]. split; [| right; now exists err].
    unfold extend. cbn [trace]. rewrite Htrace, <- app_assoc. reflexivity.
Qed.

(** What the loop of [sonar-reviewer.js] prints and asks, issue by
    issue. *)
Lemma console_loop_output issues :
  forall w : World Env,
  exists comments events w',
    for_of issues (SonarReviewer.run_body cfg) w = (Ok tt, w')
    /\ trace w' = (trace w ++ events)%list
    /\ length comments = length issues
    /\ logs_in events = flat_map block_lines (combine issues comments)
    /\ comments_in events = []
    /\ (length issues <= length (chats_in events) <= 3 * length issues)%nat
    /\ Forall (fun req => In req (map (SonarReviewer.chat_request cfg) issues))
              (chats_in events)
    /\ 0 <= total_delay events <= 1500 * Z.of_nat (length issues).
Proof.
  induction issues as [| issue rest IH]; intros w.
  - exists [], [], w. simpl. rewrite app_nil_r.
    repeat split; try reflexivity; try lia. constructor.
  - cbn [for_of]. unfold bind at 1. rewrite PublishFacts.console_run_body.
    destruct (console_enhance_attempts issue (extend w (issue_lines issue)))
      as (n & failure & text & w1 & Henhance & Hn & Htrace1 & Hfailure).
    rewrite Henhance.
    destruct (IH (extend w1 (review_lines text)))
      as (comments & later & w' & Hrest & Htrace & Hlen & Hlogs & Hnone
          & Hcount & Hreqs & Hdelay).
    exists (text :: comments),
      (issue_lines issue
       ++ ((EChat (SonarReviewer.chat_request cfg issue)
            :: further_attempts (EChat (SonarReviewer.chat_request cfg issue)) 500 0 n)
           ++ failure)
       ++ review_lines text ++ later)%list, w'.
    split; [exact Hrest |].
    split; [rewrite Htrace; unfold extend; cbn [trace]; rewrite Htrace1;
            unfold extend; cbn [trace]; now rewrite <- !app_assoc |].
    split; [simpl; now rewrite Hlen |].
    assert (Hquiet : logs_in failure = [] /\ comments_in failure = []
                     /\ chats_in failure = [] /\ total_delay failure = 0)
      by (destruct Hfailure as [-> | [err ->]]; repeat split).
    destruct Hquiet as (Hlogs0 & Hcomments0 & Hchats0 & Hdelay0).
    assert (Hattempts_logs :
              forall m k, logs_in (further_attempts
                                     (EChat (SonarReviewer.chat_request cfg issue))
                                     500 k m) = []
                          /\ comments_in (further_attempts
                                            (EChat (SonarReviewer.chat_request cfg issue))
                                            500 k m) = []).
    { induction m as [| m IHm]; intros k; simpl; [split; reflexivity | apply IHm]. }
    destruct (Hattempts_logs n 0) as [Hlogs1 Hcomments1].
    assert (Hchats1 :
              chats_in (((EChat (SonarReviewer.chat_request cfg issue)
                          :: further_attempts
                               (EChat (SonarReviewer.chat_request cfg issue)) 500 0 n)
                         ++ failure))
              = repeat (SonarReviewer.chat_request cfg issue) (S n)).
    { rewrite MeasureFacts.chats_in_app, Hchats0, app_nil_r.
      change (chats_in (EChat ?req :: ?l)) with (req :: chats_in l).
      now rewrite MeasureFacts.chats_in_further_attempts. }
    assert (Hdelay1 :
              total_delay (((EChat (SonarReviewer.chat_request cfg issue)
                             :: further_attempts
                                  (EChat (SonarReviewer.chat_request cfg issue)) 500 0 n)
                            ++ failure))
              = 500 * (2 ^ Z.of_nat n - 1)).
    { rewrite MeasureFacts.total_delay_app, Hdelay0.
      change (total_delay (EChat ?req :: ?l)) with (total_delay l).
      rewrite MeasureFacts.total_delay_further_attempts by (reflexivity || lia).
      simpl. lia. }
    assert (Hpow : 1 <= 2 ^ Z.of_nat n <= 4).
    { split.
      - change 1 with (2 ^ 0). apply Z.pow_le_mono_r; lia.
      - change 4 with (2 ^ 2). apply Z.pow_le_mono_r; lia. }
    split; [| split; [| split; [| split]]].
    + rewrite !MeasureFacts.logs_in_app, Hlogs. simpl combine. simpl flat_map.
      unfold block_lines at 1. cbn [fst snd].
      change (logs_in (EChat ?req :: ?l)) with (logs_in l).
      rewrite Hlogs1, Hlogs0. simpl. reflexivity.
    + rewrite !MeasureFacts.comments_in_app, Hnone.
      change (comments_in (EChat ?req :: ?l)) with (comments_in l).
      rewrite Hcomments1, Hcomments0. reflexivity.
    + rewrite MeasureFacts.chats_in_app.
      rewrite (MeasureFacts.chats_in_app _ (review_lines text ++ later)), Hchats1.
      rewrite MeasureFacts.chats_in_app.
      change (chats_in (issue_lines issue)) with (@nil ChatRequest).
      change (chats_in (review_lines text)) with (@nil ChatRequest).
      cbn [app]. rewrite !length_app, repeat_length.
      cbn [length]. lia.
    + rewrite MeasureFacts.chats_in_app.
      rewrite (MeasureFacts.chats_in_app _ (review_lines text ++ later)), Hchats1.
      rewrite MeasureFacts.chats_in_app.
      change (chats_in (issue_lines issue)) with (@nil ChatRequest).
      change (chats_in (review_lines text)) with (@nil ChatRequest).
      cbn [app]. apply Forall_app. split.
      * apply Forall_forall. intros req Hin.
        apply repeat_spec in Hin. subst req. now left.
      * eapply Forall_impl; [| exact Hreqs]. intros req Hin. now right.
    + rewrite MeasureFacts.total_delay_app.
      rewrite (MeasureFacts.total_delay_app _ (review_lines text ++ later)), Hdelay1.
      rewrite MeasureFacts.total_delay_app.
      change (total_delay (issue_lines issue)) with 0.
      change (total_delay (review_lines text)) with 0.
      cbn [length]. lia.
Qed.

End Run.
End ConsoleRunFacts.

Module ConsoleReportFacts.
Section Report.
Import Observe Measure.
Context {Env : Type} {services : Services Env} (cfg : Config).

(** The lines [run] prints around the loop. *)
Lemma console_run_around_loop (w w1 w2 : World Env) issues :
  issues <> [] ->
  SonarReviewer.fetchSonarIssues cfg
    (extend w [ELog "🔍 Fetching SonarQube issues..."]) = (Ok issues, w1) ->
  for_of issues (SonarReviewer.run_body cfg)
    (extend w1 [ELog ("📊 Found " ++ Js.of_Z (Z.of_nat (length issues))
                      ++ " issues in SonarQube");
                ELog (Js.nl ++ "🤖 Enhancing issues with GPT..." ++ Js.nl)])
  = (Ok tt, w2) ->
  SonarReviewer.run cfg w
  = (Ok tt,
     extend w2 [ELog (Js.repeat "=" 80);
                ELog ("🎉 Review complete! Processed "
                      ++ Js.of_Z (Z.of_nat (length issues)) ++ " issues.")]).
Proof.
  intros Hsome Hfetch Hloop.
  unfold SonarReviewer.run, bind at 1. unfold console_log at 1, emit.
  fold (extend w [ELog "🔍 Fetching SonarQube issues..."]).
  unfold bind at 1. rewrite Hfetch.
  destruct issues as [| issue rest]; [contradiction |].
  cbn [length Nat.eqb].
  unfold bind at 1. unfold console_log at 1, emit.
  unfold bind at 1. unfold console_log at 1, emit.
  unfold bind at 1.
  match goal with
  | |- context [for_of _ _ ?w0] =>
      replace w0 with
        (extend w1
           [ELog ("📊 Found " ++ Js.of_Z (Z.of_nat (length (issue :: rest)))
                  ++ " issues in SonarQube");
            ELog (Js.nl ++ "🤖 Enhancing issues with GPT..." ++ Js.nl)])
        by (unfold extend; cbn [env trace]; now rewrite <- app_assoc)
  end.
  rewrite Hloop. unfold bind, console_log, emit, extend.
  cbn [env trace]. now rewrite <- app_assoc.
Qed.

Lemma block_lines_length entries :
  length (flat_map block_lines entries) = (9 * length entries)%nat.
Proof.
  induction entries as [| entry entries IH]; [reflexivity |].
  cbn [flat_map]. rewrite length_app, IH. cbn [length].
  unfold block_lines. simpl. lia.
Qed.

End Report.
End ConsoleReportFacts.

(** X11: once the fetch has given at least one issue, [run] of
    [sonar-reviewer.js] returns normally and has printed, after the line
    that announces the fetch: the count; the line that announces the
    reviews; for each issue in the order of the fetch its six lines and the
    three lines of its review, nine in all; the closing separator; and the
    summary with the same count.  It asks for no comment. *)
Theorem console_report_prints_nine_lines_per_issue :
  forall (Env : Type) (services : Services Env) (cfg : Config) (w w1 : World Env)
         (issues : list Issue),
    issues <> [] ->
    SonarReviewer.fetchSonarIssues cfg
      (Observe.extend w [ELog "🔍 Fetching SonarQube issues..."]) = (Ok issues, w1) ->
    exists comments events w',
      SonarReviewer.run cfg w = (Ok tt, w')
      /\ trace w' = (trace w1 ++ events)%list
      /\ length comments = length issues
      /\ Measure.logs_in events
         = ([("📊 Found " ++ Js.of_Z (Z.of_nat (length issues))
               ++ " issues in SonarQube")%string;
             (Js.nl ++ "🤖 Enhancing issues with GPT..." ++ Js.nl)%string]
            ++ flat_map Measure.block_lines (combine issues comments)
            ++ [Js.repeat "=" 80;
                ("🎉 Review complete! Processed "
                 ++ Js.of_Z (Z.of_nat (length issues)) ++ " issues.")%string])%list
      /\ length (Measure.logs_in events) = (4 + 9 * length issues)%nat
      /\ Observe.comments_in events = [].
Proof.
  intros Env services cfg w w1 issues Hsome Hfetch.
  match type of Hfetch with
  | _ = (_, ?wf) =>
      destruct (ConsoleRunFacts.console_loop_output cfg issues
                  (Observe.extend wf
                     [ELog ("📊 Found " ++ Js.of_Z (Z.of_nat (length issues))
                            ++ " issues in SonarQube");
                      ELog (Js.nl ++ "🤖 Enhancing issues with GPT..." ++ Js.nl)]))
        as (comments & events & w2 & Hloop & Htrace & Hlen & Hlogs & Hnone & _)
  end.
  exists comments. eexists. eexists.
  split; [exact (ConsoleReportFacts.console_run_around_loop cfg w w1 w2 issues
                   Hsome Hfetch Hloop) |].
  split; [unfold Observe.extend at 1; cbn [trace]; rewrite Htrace;
          unfold Observe.extend; cbn [trace]; rewrite <- !app_assoc; reflexivity |].
  split; [exact Hlen |].
  assert (Hall :
            Measure.logs_in
              ([ELog ("📊 Found " ++ Js.of_Z (Z.of_nat (length issues))
                      ++ " issues in SonarQube");
                ELog (Js.nl ++ "🤖 Enhancing issues with GPT..." ++ Js.nl)]
               ++ events
               ++ [ELog (Js.repeat "=" 80);
                   ELog ("🎉 Review complete! Processed "
                         ++ Js.of_Z (Z.of_nat (length issues)) ++ " issues.")])
            = ([("📊 Found " ++ Js.of_Z (Z.of_nat (length issues))
                 ++ " issues in SonarQube")%string;
                (Js.nl ++ "🤖 Enhancing issues with GPT..." ++ Js.nl)%string]
               ++ flat_map Measure.block_lines (combine issues comments)
               ++ [Js.repeat "=" 80;
                   ("🎉 Review complete! Processed "
                    ++ Js.of_Z (Z.of_nat (length issues)) ++ " issues.")%string])%list).
  { rewrite !MeasureFacts.logs_in_app, Hlogs. reflexivity. }
  split; [exact Hall |]. split.
  - rewrite Hall, !length_app, ConsoleReportFacts.block_lines_length,
      length_combine, Hlen, Nat.min_id.
    cbn [length]. lia.
  - rewrite !MeasureFacts.comments_in_app, Hnone. reflexivity.
Qed.

Lemma console_report_prints_nine_lines_per_issue_witness :
  exists comments events w',
    SonarReviewer.run Scripted.cfg (Scripted.start Scripted.helpful) = (Ok tt, w')
    /\ trace w'
       = ([ELog "🔍 Fetching SonarQube issues...";
           EFetch (search_url Scripted.cfg) (authorization Scripted.cfg)] ++ events)%list
    /\ length comments = 1%nat
    /\ Measure.logs_in events
       = (["📊 Found 1 issues in SonarQube";
           (Js.nl ++ "🤖 Enhancing issues with GPT..." ++ Js.nl)%string]
          ++ flat_map Measure.block_lines (combine [Scripted.sample] comments)
          ++ [Js.repeat "=" 80; "🎉 Review complete! Processed 1 issues."])%list
    /\ length (Measure.logs_in events) = 13%nat
    /\ Observe.comments_in events = [].
Proof.
  refine (console_report_prints_nine_lines_per_issue Scripted.Script Scripted.services
            Scripted.cfg (Scripted.start Scripted.helpful)
            {| env := Scripted.helpful;
               trace := [ELog "🔍 Fetching SonarQube issues...";
                         EFetch (search_url Scripted.cfg) (authorization Scripted.cfg)] |}
            [Scripted.sample] _ eq_refl).
  discriminate.
Defined.

(** X12: in such a run every chat request is the request of one of the
    issues; there is at least one request per issue and at most three, and
    the delays asked for come to at most 1500 ms per issue. *)
Theorem console_report_bounds_requests_and_delay :
  forall (Env : Type) (services : Services Env) (cfg : Config) (w w1 : World Env)
         (issues : list Issue),
    issues <> [] ->
    SonarReviewer.fetchSonarIssues cfg
      (Observe.extend w [ELog "🔍 Fetching SonarQube issues..."]) = (Ok issues, w1) ->
    exists events w',
      SonarReviewer.run cfg w = (Ok tt, w')
      /\ trace w' = (trace w1 ++ events)%list
      /\ (length issues <= length (Observe.chats_in events) <= 3 * length issues)%nat
      /\ Forall (fun req => In req (map (SonarReviewer.chat_request cfg) issues))
                (Observe.chats_in events)
      /\ 0 <= Measure.total_delay events <= 1500 * Z.of_nat (length issues).
Proof.
  intros Env services cfg w w1 issues Hsome Hfetch.
  match type of Hfetch with
  | _ = (_, ?wf) =>
      destruct (ConsoleRunFacts.console_loop_output cfg issues
                  (Observe.extend wf
                     [ELog ("📊 Found " ++ Js.of_Z (Z.of_nat (length issues))
                            ++ " issues in SonarQube");
                      ELog (Js.nl ++ "🤖 Enhancing issues with GPT..." ++ Js.nl)]))
        as (comments & events & w2 & Hloop & Htrace & _ & _ & _
            & Hcount & Hreqs & Hdelay)
  end.
  eexists. eexists.
  split; [exact (ConsoleReportFacts.console_run_around_loop cfg w w1 w2 issues
                   Hsome Hfetch Hloop) |].
  split; [unfold Observe.extend at 1; cbn [trace]; rewrite Htrace;
          unfold Observe.extend; cbn [trace]; rewrite <- !app_assoc; reflexivity |].
  rewrite !MeasureFacts.chats_in_app, !MeasureFacts.total_delay_app.
  cbn [Observe.chats_in flat_map app Measure.total_delay].
  rewrite !app_nil_r, Z.add_0_r.
  split; [exact Hcount |]. split; [exact Hreqs | exact Hdelay].
Qed.

Lemma console_report_bounds_requests_and_delay_witness :
  exists events w',
    SonarReviewer.run Scripted.cfg
      (Scripted.start {| Scripted.http := Scripted.found [Scripted.sample];
                         Scripted.chats := Scripted.chats Scripted.unreachable;
                         Scripted.comments := [] |}) = (Ok tt, w')
    /\ trace w'
       = ([ELog "🔍 Fetching SonarQube issues...";
           EFetch (search_url Scripted.cfg) (authorization Scripted.cfg)] ++ events)%list
    /\ (1 <= length (Observe.chats_in events) <= 3 * 1)%nat
    /\ Forall (fun req => In req [SonarReviewer.chat_request Scripted.cfg Scripted.sample])
              (Observe.chats_in events)
    /\ 0 <= Measure.total_delay events <= 1500 * 1.
Proof.
  refine (console_report_bounds_requests_and_delay Scripted.Script Scripted.services
            Scripted.cfg
            (Scripted.start {| Scripted.http := Scripted.found [Scripted.sample];
                               Scripted.chats := Scripted.chats Scripted.unreachable;
                               Scripted.comments := [] |})
            {| env := {| Scripted.http := Scripted.found [Scripted.sample];
                         Scripted.chats := Scripted.chats Scripted.unreachable;
                         Scripted.comments := [] |};
               trace := [ELog "🔍 Fetching SonarQube issues...";
                         EFetch (search_url Scripted.cfg) (authorization Scripted.cfg)] |}
            [Scripted.sample] _ eq_refl).
  discriminate.
Defined.

(** ** The start of [sonar-reviewer.js] *)

Module StartupFacts.
Import Startup.

Lemma missingVars_filter process_env :
  missingVars process_env
  = filter (fun name => not_set (process_env name)) required_names.
Proof.
  unfold missingVars, requiredEnvVars.
  induction required_names as [| name names IH]; simpl; [reflexivity |].
  destruct (not_set (process_env name)); simpl; now rewrite IH.
Qed.

Lemma not_set_spec value :
  not_set value = true <-> value = None \/ value = Some EmptyString.
Proof.
  destruct value as [[| c s] |]; simpl; split; auto; try discriminate.
  intros [H | H]; discriminate.
Qed.

End StartupFacts.

(** X13: the variables reported missing are the required ones that are
    unset or empty, each once and in the order in which the file lists
    them; a variable that is not required is never reported. *)
Theorem missingVars_are_the_unset_required_variables :
  forall (process_env : Startup.Environment),
    (forall name,
        In name (Startup.missingVars process_env) <->
        In name Startup.required_names
        /\ (process_env name = None \/ process_env name = Some EmptyString))
    /\ Startup.missingVars process_env
       = filter (fun name => Startup.not_set (process_env name)) Startup.required_names
    /\ NoDup (Startup.missingVars process_env).
Proof.
  intros process_env. rewrite StartupFacts.missingVars_filter.
  split; [| split; [reflexivity |]].
  - intros name. rewrite filter_In, StartupFacts.not_set_spec. reflexivity.
  - apply NoDup_filter. unfold Startup.required_names.
    repeat (constructor; [simpl; intuition discriminate |]). constructor.
Qed.

Lemma missingVars_are_the_unset_required_variables_witness :
  In "GIT_USERNAME" (Startup.missingVars Startup.partial)
  /\ In "GITHUB_TOKEN" (Startup.missingVars Startup.partial).
Proof.
  pose proof (proj1 (missingVars_are_the_unset_required_variables Startup.partial))
    as Hreported.
  split; apply Hreported; (split; [simpl; auto 10 |]).
  - left. reflexivity.
  - right. reflexivity.
Defined.

(** X14: the start of the file goes on exactly when the nine required
    variables are all set and not empty, and then prints the endpoint.
    Otherwise it ends the process with status 1 after a heading, one line
    per missing variable and a closing hint. *)
Theorem start_stops_when_a_variable_is_missing :
  forall (process_env : Startup.Environment),
    ((forall name, In name Startup.required_names ->
                   exists c s, process_env name = Some (String c s))
     <-> exists output, Startup.start process_env = Startup.Proceed output)
    /\ (forall output,
          Startup.start process_env = Startup.Proceed output ->
          exists endpoint,
            process_env "AZURE_OPENAI_ENDPOINT" = Some endpoint
            /\ output = ["🔧 Azure endpoint: " ++ endpoint])
    /\ (forall status errors,
          Startup.start process_env = Startup.Exit status errors ->
          status = 1
          /\ Startup.missingVars process_env <> []
          /\ errors
             = (["❌ Missing required environment variables:"]
                ++ map (fun varName => ("   - " ++ varName)%string)
                       (Startup.missingVars process_env)
                ++ [(Js.nl ++ "Please create a .env file with these variables.")%string])%list).
Proof.
  intros process_env.
  assert (Hnone : Startup.missingVars process_env = [] <->
                  forall name, In name Startup.required_names ->
                               exists c s, process_env name = Some (String c s)).
  { rewrite StartupFacts.missingVars_filter. split.
    - intros Hempty name Hin.
      destruct (process_env name) as [[| c s] |] eqn:Hvalue; [| now exists c, s |];
        exfalso;
        assert (Hmissing : In name (filter (fun name => Startup.not_set (process_env name))
                                      Startup.required_names))
          by (apply filter_In; split; [exact Hin | now rewrite Hvalue]);
        rewrite Hempty in Hmissing; exact Hmissing.
    - intros Hall.
      destruct (filter _ Startup.required_names) as [| name rest] eqn:Hfilter;
        [reflexivity |].
      assert (Hin : In name (filter (fun name => Startup.not_set (process_env name))
                               Startup.required_names))
        by (rewrite Hfilter; now left).
      apply filter_In in Hin as [Hin Hnot].
      destruct (Hall name Hin) as (c & s & Hvalue).
      rewrite Hvalue in Hnot. discriminate. }
  unfold Startup.start.
  destruct (Startup.missingVars process_env) as [| name rest] eqn:Hmissing.
  - cbn [length Nat.ltb Nat.leb]. split; [| split].
    + split; [intros _; eexists; reflexivity | intros _; now apply Hnone].
    + intros output [= <-].
      destruct (proj1 Hnone eq_refl "AZURE_OPENAI_ENDPOINT") as (c & s & Hvalue);
        [unfold Startup.required_names; simpl; auto 10 |].
      rewrite Hvalue. now exists (String c s).
    + discriminate.
  - cbn [length Nat.ltb Nat.leb]. split; [| split].
    + split; [intros Hall; apply Hnone in Hall; discriminate | intros [output H]; discriminate].
    + discriminate.
    + intros status errors [= <- <-]. repeat split. discriminate.
Qed.

Lemma start_stops_when_a_variable_is_missing_witness :
  (exists output, Startup.start Startup.complete = Startup.Proceed output)
  /\ Startup.missingVars Startup.partial <> [].
Proof.
  split.
  - apply (proj1 (start_stops_when_a_variable_is_missing Startup.complete)).
    intros name Hin. simpl in Hin.
    repeat (destruct Hin as [<- | Hin]; [eexists; eexists; reflexivity |]).
    contradiction.
  - exact (proj1 (proj2 (proj2 (proj2 (start_stops_when_a_variable_is_missing
                                         Startup.partial))
                           _ _ eq_refl))).
Defined.

(** ** The path and the repository *)

(** X15: what the console report shows as file.  A component without
    colon is shown whole.  Otherwise the piece between the first colon and
    the second, or the end, is shown, whatever follows a second colon
    being dropped; when that piece is empty the component is shown whole. *)
Theorem console_file_is_the_second_piece :
  forall (issue : Issue),
    (Observe.free_of ":" (component issue) ->
     SonarReviewer.file_of issue = component issue)
    /\ (forall key file,
          component issue = key ++ String ":" file ->
          Observe.free_of ":" key -> Observe.free_of ":" file ->
          file <> EmptyString ->
          SonarReviewer.file_of issue = file)
    /\ (forall key file rest,
          component issue = key ++ String ":" (file ++ String ":" rest) ->
          Observe.free_of ":" key -> Observe.free_of ":" file ->
          file <> EmptyString ->
          SonarReviewer.file_of issue = file)
    /\ (forall key,
          component issue = key ++ ":" -> Observe.free_of ":" key ->
          SonarReviewer.file_of issue = component issue)
    /\ (forall key rest,
          component issue = key ++ String ":" (String ":" rest) ->
          Observe.free_of ":" key ->
          SonarReviewer.file_of issue = component issue).
Proof.
  intros issue. split; [| split; [| split; [| split]]].
  - intros Hfree.
    destruct (PathFacts.path_without_colon issue Hfree) as (Hfile & Hwhole & _).
    now rewrite Hfile.
  - intros key file Hcomponent Hkey Hfile Hsome.
    exact (proj1 (PathFacts.path_with_one_colon issue key file
                    Hcomponent Hkey Hfile Hsome)).
  - intros key file rest Hcomponent Hkey Hfile Hsome.
    unfold SonarReviewer.file_of.
    rewrite Hcomponent, (JsFacts.split_app _ _ _ Hkey), (JsFacts.split_app _ _ _ Hfile).
    simpl. destruct file; [contradiction | reflexivity].
  - intros key Hcomponent Hkey. unfold SonarReviewer.file_of.
    rewrite Hcomponent, (JsFacts.split_app _ _ _ Hkey). reflexivity.
  - intros key rest Hcomponent Hkey. unfold SonarReviewer.file_of.
    rewrite Hcomponent, (JsFacts.split_app _ _ _ Hkey).
    change (String ":" rest) with (EmptyString ++ String ":" rest).
    rewrite (JsFacts.split_app ":" EmptyString rest I). reflexivity.
Qed.

Lemma console_file_is_the_second_piece_witness :
  SonarReviewer.file_of (Scripted.issue_on "org.example:app:src/Main.java" Js.Undefined)
  = "app".
Proof.
  exact (proj1 (proj2 (proj2 (console_file_is_the_second_piece
                                (Scripted.issue_on "org.example:app:src/Main.java"
                                   Js.Undefined))))
           "org.example" "app" "src/Main.java" eq_refl
           ltac:(repeat split; discriminate) ltac:(repeat split; discriminate)
           ltac:(discriminate)).
Defined.

(** X16: the path of a review comment.  It is [undefined] for a component
    without colon, and otherwise the piece between the first colon and the
    second, or the end: it may be empty, and whatever follows a second
    colon is dropped. *)
Theorem review_path_is_the_second_piece :
  forall (issue : Issue),
    (Observe.free_of ":" (component issue) -> Reviewer.path_of issue = None)
    /\ (forall key file,
          component issue = key ++ String ":" file ->
          Observe.free_of ":" key -> Observe.free_of ":" file ->
          Reviewer.path_of issue = Some file)
    /\ (forall key file rest,
          component issue = key ++ String ":" (file ++ String ":" rest) ->
          Observe.free_of ":" key -> Observe.free_of ":" file ->
          Reviewer.path_of issue = Some file).
Proof.
  intros issue. split; [| split].
  - intros Hfree. exact (proj2 (proj2 (PathFacts.path_without_colon issue Hfree))).
  - intros key file Hcomponent Hkey Hfile. unfold Reviewer.path_of.
    rewrite Hcomponent, (JsFacts.split_app _ _ _ Hkey), (JsFacts.split_free _ _ Hfile).
    reflexivity.
  - intros key file rest Hcomponent Hkey Hfile.
    exact (proj1 (PathFacts.path_is_second_piece issue key file rest
                    Hcomponent Hkey Hfile)).
Qed.

Lemma review_path_is_the_second_piece_witness :
  Reviewer.path_of (Scripted.issue_on "myproj" Js.Undefined) = None.
Proof.
  exact (proj1 (review_path_is_the_second_piece (Scripted.issue_on "myproj" Js.Undefined))
           ltac:(repeat split; discriminate)).
Defined.

(** X17: the owner and the repository of a comment request are the first
    two pieces of [GITHUB_REPOSITORY] cut at its slashes: for [owner/repo]
    they are both as expected, without slash the repository is
    [undefined], and a third piece is ignored. *)
Theorem comment_goes_to_the_first_two_pieces_of_the_repository :
  forall (cfg : Config) (body : string) (path : option string) (line : Js.value),
    let args := Reviewer.comment_args cfg body path line in
    (forall o r,
        GITHUB_REPOSITORY cfg = o ++ String "/" r ->
        Observe.free_of "/" o -> Observe.free_of "/" r ->
        owner args = Some o /\ repo args = Some r)
    /\ (Observe.free_of "/" (GITHUB_REPOSITORY cfg) ->
        owner args = Some (GITHUB_REPOSITORY cfg) /\ repo args = None)
    /\ (forall o r rest,
          GITHUB_REPOSITORY cfg = o ++ String "/" (r ++ String "/" rest) ->
          Observe.free_of "/" o -> Observe.free_of "/" r ->
          owner args = Some o /\ repo args = Some r)
    /\ pull_number args = PR_NUMBER cfg
    /\ commit_id args = GITHUB_SHA cfg.
Proof.
  intros cfg body path line args. unfold args, Reviewer.comment_args. cbn [owner repo].
  split; [| split; [| split; [| split; reflexivity]]].
  - intros o r Hrepo Ho Hr.
    rewrite Hrepo, (JsFacts.split_app _ _ _ Ho), (JsFacts.split_free _ _ Hr).
    split; reflexivity.
  - intros Hfree. rewrite (JsFacts.split_free _ _ Hfree). split; reflexivity.
  - intros o r rest Hrepo Ho Hr.
    rewrite Hrepo, (JsFacts.split_app _ _ _ Ho), (JsFacts.split_app _ _ _ Hr).
    split; reflexivity.
Qed.

Lemma comment_goes_to_the_first_two_pieces_of_the_repository_witness :
  owner (Reviewer.comment_args Scripted.cfg "text" None Js.Undefined) = Some "octo"
  /\ repo (Reviewer.comment_args Scripted.cfg "text" None Js.Undefined) = Some "demo".
Proof.
  exact (proj1 (comment_goes_to_the_first_two_pieces_of_the_repository
                  Scripted.cfg "text" None Js.Undefined)
           "octo" "demo" eq_refl
           ltac:(repeat split; discriminate) ltac:(repeat split; discriminate)).
Defined.

(** ** A falsy line *)

(** C10: an issue whose [line] is present but falsy, [0] for one, is
    handled as the same issue with no [line].  Both prompts show [N/A]
    after [Line: ].  In [reviewer.js] the handling of the issue sends one
    chat request, with that prompt, and one comment request, at line 1.
    In [sonar-reviewer.js] it prints [Line: N/A] as third line and sends at
    least one chat request, each with that prompt.  And in both files the
    handling is, effect for effect, that of the issue without [line]. *)
Theorem falsy_line_is_treated_as_absent :
  forall (issue : Issue),
    Js.truthy (line issue) = false ->
    SonarReviewer.prompt issue = Observe.prompt_showing issue "N/A"
    /\ Reviewer.prompt issue = Observe.prompt_showing issue "N/A"
    /\ In (ELog "📍 Line: N/A") (Observe.issue_lines issue)
    /\ (forall cfg body path,
          comment_line (Reviewer.comment_args cfg body path (line issue)) = Js.Num 1)
    /\ (forall (Env : Type) (services : Services Env) (cfg : Config) (w : World Env),
          SonarReviewer.run_body cfg issue w
          = SonarReviewer.run_body cfg (Observe.without_line issue) w
          /\ Reviewer.run_body cfg issue w
             = Reviewer.run_body cfg (Observe.without_line issue) w)
    /\ (forall (Env : Type) (services : Services Env) (cfg : Config) (w : World Env),
          exists events w',
            Reviewer.run_body cfg issue w = (Ok tt, w')
            /\ trace w' = (trace w ++ events)%list
            /\ map comment_line (Observe.comments_in events) = [Js.Num 1]
            /\ map messages (Observe.chats_in events)
               = [[{| role := "user";
                      content := Observe.prompt_showing issue "N/A" |}]])
    /\ (forall (Env : Type) (services : Services Env) (cfg : Config) (w : World Env),
          exists events w',
            SonarReviewer.run_body cfg issue w = (Ok tt, w')
            /\ trace w' = (trace w ++ events)%list
            /\ nth_error (Measure.logs_in events) 2 = Some "📍 Line: N/A"
            /\ Observe.chats_in events <> []
            /\ Forall (fun req =>
                         messages req
                         = [{| role := "user";
                               content := Observe.prompt_showing issue "N/A" |}])
                      (Observe.chats_in events)).
Proof.
  intros issue Hfalsy.
  pose proof (fun d => or_else_falsy (line issue) d Hfalsy) as Hor.
  assert (Hconsole : SonarReviewer.prompt issue
                     = SonarReviewer.prompt (Observe.without_line issue))
    by (unfold SonarReviewer.prompt; now rewrite Hor).
  assert (Hreview : Reviewer.prompt issue = Reviewer.prompt (Observe.without_line issue))
    by (unfold Reviewer.prompt; now rewrite Hor).
  assert (Hshown : SonarReviewer.prompt issue = Observe.prompt_showing issue "N/A")
    by (unfold SonarReviewer.prompt; now rewrite Hor).
  assert (Hshown' : Reviewer.prompt issue = Observe.prompt_showing issue "N/A")
    by (unfold Reviewer.prompt; now rewrite Hor).
  split; [exact Hshown |]. split; [exact Hshown' |].
  split; [unfold Observe.issue_lines; rewrite Hor; simpl; auto |].
  split; [intros cfg body path; simpl; apply Hor |].
  split; [| split].
  - intros Env services cfg w. split.
    + unfold SonarReviewer.run_body, SonarReviewer.print_issue,
        SonarReviewer.enhanceWithGPT, SonarReviewer.chat_request, SonarReviewer.file_of.
      rewrite Hconsole, Hor. reflexivity.
    + unfold Reviewer.run_body, Reviewer.enhanceWithGPT, Reviewer.postComment,
        Reviewer.chat_request, Reviewer.comment_args, Reviewer.path_of.
      rewrite Hreview, Hor. reflexivity.
  - intros Env services cfg w.
    destruct (review_run_body_events Env services cfg issue w)
      as (gptComment & enrich & failure & env2 & Hrun & Henrich & Hfailure).
    eexists _, _. split; [exact Hrun |]. split; [reflexivity |].
    unfold Reviewer.chat_request. rewrite Hshown'.
    destruct Henrich as [-> | [err ->]], Hfailure as [-> | [err' ->]];
      split; simpl; rewrite ?Hor; reflexivity.
  - intros Env services cfg w.
    destruct (OrderFacts.console_run_body_events cfg issue w)
      as (gptComment & enrich & w' & Hrun & Htrace & Henrich).
    eexists _, w'. split; [exact Hrun |]. split; [exact Htrace |].
    assert (Hchats :
              Forall (fun req => req = SonarReviewer.chat_request cfg issue)
                     (Observe.chats_in enrich)).
    { clear Htrace. induction Henrich as [| ev enrich Hev Henrich IH]; [constructor |].
      destruct ev; simpl in *; try exact IH; try contradiction.
      constructor; [exact Hev | exact IH]. }
    assert (Hquiet : Measure.logs_in enrich = []).
    { clear Htrace Hchats.
      induction Henrich as [| ev enrich Hev Henrich IH]; [reflexivity |].
      destruct ev; simpl in *; try exact IH; contradiction. }
    rewrite MeasureFacts.logs_in_app, MeasureFacts.chats_in_app.
    change (Observe.chats_in (Observe.issue_lines issue)) with (@nil ChatRequest).
    change (Observe.chats_in (EChat ?req :: ?rest)) with (req :: Observe.chats_in rest).
    rewrite MeasureFacts.chats_in_app.
    change (Observe.chats_in (Observe.review_lines gptComment)) with (@nil ChatRequest).
    rewrite app_nil_r. cbn [app].
    split; [| split; [discriminate |]].
    + unfold Observe.issue_lines. rewrite Hor. reflexivity.
    + constructor.
      * unfold SonarReviewer.chat_request. cbn [messages]. now rewrite Hshown.
      * eapply Forall_impl; [| exact Hchats]. intros req ->.
        unfold SonarReviewer.chat_request. cbn [messages]. now rewrite Hshown.
Qed.

Lemma falsy_line_is_treated_as_absent_witness :
  Reviewer.run_body Scripted.cfg (Scripted.issue_on "myproj:src/a/b.ts" (Js.Num 0))
    (Scripted.start Scripted.helpful)
  = Reviewer.run_body Scripted.cfg (Scripted.issue_on "myproj:src/a/b.ts" Js.Undefined)
      (Scripted.start Scripted.helpful)
  /\ comment_line (Reviewer.comment_args Scripted.cfg "text" (Some "src/a/b.ts") (Js.Num 0))
     = Js.Num 1
  /\ (exists events w',
        Reviewer.run_body Scripted.cfg (Scripted.issue_on "myproj:src/a/b.ts" (Js.Num 0))
          (Scripted.start Scripted.helpful) = (Ok tt, w')
        /\ trace w' = ([] ++ events)%list
        /\ map comment_line (Observe.comments_in events) = [Js.Num 1]
        /\ map messages (Observe.chats_in events)
           = [[{| role := "user";
                  content := Observe.prompt_showing
                               (Scripted.issue_on "myproj:src/a/b.ts" (Js.Num 0))
                               "N/A" |}]])
  /\ (exists events w',
        SonarReviewer.run_body Scripted.cfg
          (Scripted.issue_on "myproj:src/a/b.ts" (Js.Num 0))
          (Scripted.start Scripted.helpful) = (Ok tt, w')
        /\ trace w' = ([] ++ events)%list
        /\ nth_error (Measure.logs_in events) 2 = Some "📍 Line: N/A"
        /\ Observe.chats_in events <> []
        /\ Forall (fun req =>
                     messages req
                     = [{| role := "user";
                           content := Observe.prompt_showing
                                        (Scripted.issue_on "myproj:src/a/b.ts" (Js.Num 0))
                                        "N/A" |}])
                  (Observe.chats_in events)).
Proof.
  pose proof (falsy_line_is_treated_as_absent
                (Scripted.issue_on "myproj:src/a/b.ts" (Js.Num 0)) eq_refl)
    as (_ & _ & _ & Hline & Hsame & Hreview & Hconsole).
  split; [| split; [| split]].
  - exact (proj2 (Hsame Scripted.Script Scripted.services Scripted.cfg
                    (Scripted.start Scripted.helpful))).
  - exact (Hline Scripted.cfg "text" (Some "src/a/b.ts")).
  - exact (Hreview Scripted.Script Scripted.services Scripted.cfg
             (Scripted.start Scripted.helpful)).
  - exact (Hconsole Scripted.Script Scripted.services Scripted.cfg
             (Scripted.start Scripted.helpful)).
Defined.

Example trim_removes_every_white_space :
  Js.trim (Js.bytes [194; 160] ++ "Drop it." ++ Js.bytes [194; 160]) = "Drop it."%string
  /\ Js.trim (Js.bytes [239; 187; 191] ++ Js.nl ++ "Drop it."
              ++ Js.bytes [226; 128; 168] ++ Js.bytes [227; 128; 128] ++ " ")
     = "Drop it."%string
  /\ Js.trim ("a" ++ Js.bytes [194; 160] ++ "b") = ("a" ++ Js.bytes [194; 160] ++ "b")%string
  /\ Js.trim (Js.bytes [226; 128; 139] ++ "x") = (Js.bytes [226; 128; 139] ++ "x")%string
  /\ Js.trim (Js.bytes [194; 133] ++ "x") = (Js.bytes [194; 133] ++ "x")%string.
Proof. repeat split. Qed.

(** A byte 160 that ends the encoding of another character is no white
    space: only the two bytes of U+00A0 are. *)
Example trim_keeps_other_characters :
  Js.trim ("  voilà ") = "voilà"%string
  /\ Js.trim ("à" ++ Js.bytes [194; 160]) = "à"%string.
Proof. repeat split. Qed.
